(** * Oracle limit market makers (drift-labs/examples, rust/bots)

    Shallow embedding of the two quoting bots
    - [bots/oracle-limit-maker/src/maker.rs]        (module [OLM]),
    - [bots/simple-oracle-limit-maker/src/maker.rs] (module [SOLM]).

    Modelling conventions.
    - Rust integers ([i64], [u64], [i32], [u16]) are [Z] (or [N] for [u16]
      configuration fields); [u64] subtraction wraps as in a release build.
    - In the two update gates, whose decision compares a computed value
      with a threshold, [f32] and [f64] arithmetic is IEEE 754 binary32 and
      binary64 (round to nearest, ties to even), as the Standard Library's
      [SpecFloat] specifies it.  Elsewhere [f64] values are exact reals
      ([R]) and rounding is not modelled; [f64::tanh] is the real [tanh].
      [x as i32] truncates toward zero and saturates, as Rust's
      float-to-int cast does.
    - Every call to the Drift client ([oracle_price], [get_user_account],
      [init_tx], [sign_and_send], [unsubscribe], the clock) is an input: the
      response it gives in this run is a field of a response record.  The
      side effects the bot performs are recorded in an effect log. *)

From Stdlib Require Import ZArith Reals Lra Lia String List SpecFloat.
Import ListNotations.

Open Scope Z_scope.

(** ** Rust primitive operations *)

(** [a - b] on [u64] (wrapping, release profile). *)
Definition u64_sub (a b : Z) : Z := (a - b) mod 2 ^ 64.

(** [i64] arithmetic wraps in a release build. *)
Definition i64_wrap (z : Z) : Z := (z + 2 ^ 63) mod 2 ^ 64 - 2 ^ 63.

(** [i64::abs] ([i64::MIN.abs()] wraps to [i64::MIN]). *)
Definition i64_abs (z : Z) : Z := i64_wrap (Z.abs z).

(** Truncation toward zero of a real number. *)
Definition trunc (x : R) : Z :=
  if Rle_dec 0 x then Int_part x else - Int_part (- x).

(** [x as i32] for a float: truncate, then saturate. *)
Definition f64_as_i32 (x : R) : Z :=
  Z.max (- 2 ^ 31) (Z.min (2 ^ 31 - 1) (trunc x)).

(** [x as u64] for a float: truncate, then saturate (negatives give 0). *)
Definition f64_as_u64 (x : R) : Z :=
  Z.max 0 (Z.min (2 ^ 64 - 1) (trunc x)).

(** [f64::abs]. *)
Definition f64_abs (x : R) : R := Rabs x.

(** [f64::max] (no NaN in the model). *)
Definition f64_max (x y : R) : R := Rmax x y.

(** IEEE 754 binary32 ([f32]): [z as f32] for an integer, [*], [/], and
    [x >= y] (false when a NaN is compared). *)
Definition f32_of_Z (z : Z) : spec_float := binary_normalize 24 128 z 0 false.
Definition f32_mul (x y : spec_float) : spec_float := SFmul 24 128 x y.
Definition f32_div (x y : spec_float) : spec_float := SFdiv 24 128 x y.
Definition f32_ge (x y : spec_float) : bool := SFleb y x.

(** IEEE 754 binary64 ([f64]) in the same way, and [x < y]. *)
Definition f64_of_Z (z : Z) : spec_float := binary_normalize 53 1024 z 0 false.
Definition f64_mul (x y : spec_float) : spec_float := SFmul 53 1024 x y.
Definition f64_div (x y : spec_float) : spec_float := SFdiv 53 1024 x y.
Definition f64_lt (x y : spec_float) : bool := SFltb x y.

(** Fallible results ([anyhow::Result]). *)
Inductive Result (A : Type) : Type :=
| Ok : A -> Result A
| Err : string -> Result A.
Arguments Ok {A} _.
Arguments Err {A} _.

(** ** Drift SDK data used by the bots *)

(** [drift_rs::math::constants]: QUOTE_PRECISION = 1e6, BASE_PRECISION = 1e9. *)
Definition QUOTE_PRECISION : Z := 1000000.
Definition BASE_PRECISION : Z := 1000000000.
Definition QUOTE_PRECISION_F64 : R := IZR QUOTE_PRECISION.
Definition BASE_PRECISION_F64 : R := IZR BASE_PRECISION.

Inductive OrderType := Limit | Market.
Inductive PositionDirection := Long | Short.

(** The [OrderParams] fields the bots set ([..Default::default()] for the rest). *)
Record OrderParams := {
  order_type : OrderType;
  direction : PositionDirection;
  base_asset_amount : Z;          (* u64 *)
  market_index : Z;               (* u16 *)
  price : Z;
  oracle_price_offset : option Z; (* Option<i32> *)
  post_only : bool;               (* TryPostOnly vs default None *)
  reduce_only : bool
}.

Record PerpPosition := {
  pos_market_index : Z;
  pos_base_asset_amount : Z       (* i64 *)
}.

Definition default_perp_position (idx : Z) : PerpPosition :=
  {| pos_market_index := idx; pos_base_asset_amount := 0 |}.

(** One instruction of a transaction built with [init_tx(..)]. *)
Inductive TxOp :=
| CancelOrders (market_index : Z)   (* cancel_orders((idx, Perp), None) *)
| CancelAllOrders                   (* cancel_all_orders() *)
| PlaceOrders (orders : list OrderParams).

Definition Tx := list TxOp.

(** Observable effects of a bot. *)
Inductive Effect :=
| Submit (tx : Tx)          (* sign_and_send(tx) was called *)
| Unsubscribe               (* client.unsubscribe() was called *)
| GrpcUnsubscribe           (* client.grpc_unsubscribe() *)
| Sleep (ms : Z)            (* tokio::time::sleep *)
| LogError (msg : string).  (* error! *)

(** [iter().find(|pos| pos.market_index == idx).cloned()]. *)
Definition find_position (idx : Z) (ps : list PerpPosition) : option PerpPosition :=
  find (fun p => Z.eqb (pos_market_index p) idx) ps.

(** A [BTreeMap<price, size>] side of the L2 snapshot, as its entries in
    ascending key order (the map's iteration order). *)
Definition BTreeMap := list (Z * Z).

(** [iter().next()]: the smallest key. *)
Definition btree_first (m : BTreeMap) : option (Z * Z) :=
  match m with [] => None | e :: _ => Some e end.

(** [iter().next_back()]: the largest key. *)
Definition btree_last (m : BTreeMap) : option (Z * Z) :=
  match rev m with [] => None | e :: _ => Some e end.

Record L2Snapshot := { bids : BTreeMap; asks : BTreeMap }.

(** Responses of the client during one iteration of a trading loop. *)
Record Tick := {
  t_oracle : option Z;                          (* oracle price read, if any *)
  t_now_gate : Z;                               (* clock read by the update gate *)
  t_l2 : L2Snapshot;                            (* dlob.get_l2_snapshot(..) *)
  t_user_account : Result (list PerpPosition);  (* get_user_account(..) *)
  t_now_update : Z;                             (* clock read when state is updated *)
  t_init_tx : Result unit;                      (* init_tx(..).await *)
  t_send : Result string                        (* sign_and_send(..): signature *)
}.

(** How a trading loop ended: still running when the run was interrupted
    (the [select!] in [main] drops the future on Ctrl+C), or returned. *)
Inductive LoopEnd :=
| Interrupted
| Exited (r : Result unit).

(** ** Bot [oracle-limit-maker] *)
Module OLM.

Open Scope R_scope.

(** [calculate_inventory_skew]. *)
Definition calculate_inventory_skew (position_ratio : R) : R * R :=
  if Rle_dec (f64_abs position_ratio) 0.1 then (1, 1)
  else
    let abs_ratio := f64_abs position_ratio in
    let max_skew := 0.8 in
    let scale := 0.2 in
    let skew := max_skew * tanh (abs_ratio / scale) in
    if Rlt_dec 0 position_ratio then (1 + skew, 1 - skew)
    else (1 - skew, 1 + skew).

(** [calculate_dynamic_sizing]. *)
Definition calculate_dynamic_sizing (base_size position_ratio : R) : R * R :=
  let abs_ratio := f64_abs position_ratio in
  let reduction_start_pct := 0.2 in
  if Rle_dec 1 abs_ratio then
    (if Rlt_dec 0 position_ratio then (0, base_size) else (base_size, 0))
  else
    let size_multiplier :=
      if Rlt_dec reduction_start_pct abs_ratio then
        let slope := -1 / (1 - reduction_start_pct) in
        let intercept := - slope in
        slope * abs_ratio + intercept
      else 1 in
    if Rlt_dec 0 position_ratio then (base_size * size_multiplier, base_size)
    else if Rlt_dec position_ratio 0 then (base_size, base_size * size_multiplier)
    else (base_size, base_size).

(** [BotConfig]. *)
Record BotConfig := {
  target_market : string;
  order_size : R;
  max_position_size : R;
  spread_multiplier : R;
  debounce_ms : Z;                    (* u64 *)
  oracle_change_threshold_bps : spec_float;    (* f32 *)
  authority : option string;
  subaccount_id : Z
}.

(** [State] (runtime state, [Default] is all zero / false). *)
Record State := {
  prev_oracle_price : Z;   (* i64 *)
  last_update_time : Z;    (* u64 *)
  is_running : bool
}.

Definition state_default : State :=
  {| prev_oracle_price := 0; last_update_time := 0; is_running := false |}.

Definition set_running (b : bool) (st : State) : State :=
  {| prev_oracle_price := prev_oracle_price st;
     last_update_time := last_update_time st; is_running := b |}.

(** [should_update]; [now] is [get_current_timestamp_ms()]. *)
Definition should_update (cfg : BotConfig) (st : State) (now new_price : Z) : bool :=
  if Z.ltb (u64_sub now (last_update_time st)) (debounce_ms cfg) then false
  else if Z.eqb (prev_oracle_price st) 0 then true
  else
    let price_diff := f32_of_Z (i64_abs (i64_wrap (new_price - prev_oracle_price st))) in
    let change_bps :=
      f32_div (f32_mul price_diff (f32_of_Z 10000)) (f32_of_Z (i64_abs (prev_oracle_price st))) in
    if f32_ge change_bps (oracle_change_threshold_bps cfg) then true else false.

(** The quote of one update: oracle offsets (i32) and sizes (f64). *)
Record QuoteIntent := {
  bid_offset : Z;
  ask_offset : Z;
  bid_size : R;
  ask_size : R
}.

(** Best bid of the snapshot, in quote units ([next_back] of [l2.bids]). *)
Definition best_bid (l2 : L2Snapshot) : Result R :=
  match btree_last (bids l2) with
  | Some (p, _) => Ok (IZR p / QUOTE_PRECISION_F64)
  | None => Err "No bids in orderbook"
  end.

(** Best ask of the snapshot, in quote units ([next] of [l2.asks]). *)
Definition best_ask (l2 : L2Snapshot) : Result R :=
  match btree_first (asks l2) with
  | Some (p, _) => Ok (IZR p / QUOTE_PRECISION_F64)
  | None => Err "No asks in orderbook"
  end.

(** Lines 179 and 207-236 of [process_update]: the quote for oracle price
    [new_price], best prices [bid_price], [ask_price] and the position
    [base_asset_amount] (raw i64). *)
Definition compute_quote (cfg : BotConfig) (new_price : Z) (bid_price ask_price : R)
    (position_base : Z) : QuoteIntent :=
  let oracle_price := IZR new_price / QUOTE_PRECISION_F64 in
  let mid_price := (bid_price + ask_price) / 2 in
  let current_spread := ask_price - bid_price in
  let our_spread := current_spread * spread_multiplier cfg in
  let base_amount := IZR position_base / BASE_PRECISION_F64 in
  let position_ratio := base_amount / max_position_size cfg in
  let '(bsz, asz) := calculate_dynamic_sizing (order_size cfg) position_ratio in
  let '(bid_mult, ask_mult) := calculate_inventory_skew position_ratio in
  let our_bid := mid_price - (our_spread / 2 * bid_mult) in
  let our_ask := mid_price + (our_spread / 2 * ask_mult) in
  {| bid_offset := f64_as_i32 ((our_bid - oracle_price) * QUOTE_PRECISION_F64);
     ask_offset := f64_as_i32 ((our_ask - oracle_price) * QUOTE_PRECISION_F64);
     bid_size := bsz; ask_size := asz |}.

(** The two post-only oracle-offset limit orders built from a quote. *)
Definition quote_orders (idx : Z) (q : QuoteIntent) : list OrderParams :=
  [ {| order_type := Limit; direction := Long;
       base_asset_amount := f64_as_u64 (bid_size q * BASE_PRECISION_F64);
       market_index := idx; price := 0; oracle_price_offset := Some (bid_offset q);
       post_only := true; reduce_only := false |};
    {| order_type := Limit; direction := Short;
       base_asset_amount := f64_as_u64 (ask_size q * BASE_PRECISION_F64);
       market_index := idx; price := 0; oracle_price_offset := Some (ask_offset q);
       post_only := true; reduce_only := false |} ].

(** [get_current_position]. *)
Definition get_current_position (idx : Z) (user_account : Result (list PerpPosition))
    : Result (option PerpPosition) :=
  match user_account with
  | Ok ps => Ok (find_position idx ps)
  | Err e => Err e
  end.

(** [process_update]: returns the result, the new state and the effects. *)
Definition process_update (cfg : BotConfig) (idx : Z) (st : State) (new_price : Z)
    (tk : Tick) : Result unit * State * list Effect :=
  match best_bid (t_l2 tk) with
  | Err e => (Err e, st, [])
  | Ok bid_price =>
  match best_ask (t_l2 tk) with
  | Err e => (Err e, st, [])
  | Ok ask_price =>
  match get_current_position idx (t_user_account tk) with
  | Err e => (Err e, st, [])
  | Ok pos =>
  let position := match pos with Some p => p | None => default_perp_position 0 end in
  let q := compute_quote cfg new_price bid_price ask_price (pos_base_asset_amount position) in
  match t_init_tx tk with
  | Err e => (Err e, st, [])
  | Ok _ =>
  let tx := [CancelOrders idx; PlaceOrders (quote_orders idx q)] in
  match t_send tk with
  | Err e => (Err e, st, [Submit tx])
  | Ok _ =>
    (Ok tt,
     {| prev_oracle_price := new_price; last_update_time := t_now_update tk;
        is_running := is_running st |},
     [Submit tx])
  end end end end end.

(** The body of the [while] loop of [trading_loop], for one tick: [None]
    when the [?] on the oracle read leaves the loop. *)
Definition loop_body (cfg : BotConfig) (idx : Z) (st : State) (tk : Tick)
    : option (State * list Effect) :=
  match t_oracle tk with
  | None => None
  | Some current_oracle_price =>
    let '(st', eff) :=
      if should_update cfg st (t_now_gate tk) current_oracle_price then
        match process_update cfg idx st current_oracle_price tk with
        | (Err e, s, ef) => (s, ef ++ [LogError ("Update failed: " ++ e)])
        | (Ok _, s, ef) => (s, ef)
        end
      else (st, []) in
    Some (st', eff ++ [Sleep 100])
  end.

(** [trading_loop] run over the ticks that happen before an interruption. *)
Fixpoint trading_loop_run (cfg : BotConfig) (idx : Z) (st : State) (ticks : list Tick)
    : LoopEnd * State * list Effect :=
  match ticks with
  | [] => (Interrupted, st, [])
  | tk :: rest =>
    if is_running st then
      match loop_body cfg idx st tk with
      | None => (Exited (Err "Failed to get oracle price"), st, [])
      | Some (st', eff) =>
        let '(e, st'', eff') := trading_loop_run cfg idx st' rest in
        (e, st'', eff ++ eff')
      end
    else (Exited (Ok tt), st, [])
  end.

(** [start] = [trading_loop], which first sets [is_running]. *)
Definition start (cfg : BotConfig) (idx : Z) (st : State) (ticks : list Tick)
    : LoopEnd * State * list Effect :=
  trading_loop_run cfg idx (set_running true st) ticks.

(** The gate decisions taken along a run, one per tick that reads a price. *)
Fixpoint decisions (cfg : BotConfig) (idx : Z) (st : State) (ticks : list Tick) : list bool :=
  match ticks with
  | [] => []
  | tk :: rest =>
    if is_running st then
      match t_oracle tk, loop_body cfg idx st tk with
      | Some p, Some (st', _) => should_update cfg st (t_now_gate tk) p :: decisions cfg idx st' rest
      | _, _ => []
      end
    else []
  end.

(** Responses of the client during [stop]. *)
Record StopEnv := {
  s_user_account : Result (list PerpPosition);
  s_init_tx : Result unit;
  s_send : Result string;
  s_unsubscribe : Result unit
}.

(** The unsubscribe tail of [stop]. *)
Definition unsubscribe_step (env : StopEnv) : list Effect :=
  [GrpcUnsubscribe; Unsubscribe] ++
  match s_unsubscribe env with
  | Ok _ => []
  | Err e => [LogError ("Failed to unsubscribe: " ++ e)]
  end.

(** [stop]. *)
Definition stop (cfg : BotConfig) (idx : Z) (st : State) (env : StopEnv)
    : Result unit * State * list Effect :=
  let st1 := set_running false st in
  let should_close :=
    match get_current_position idx (s_user_account env) with
    | Ok (Some pos) => if Z.eqb (pos_base_asset_amount pos) 0 then None else Some pos
    | _ => None
    end in
  match should_close with
  | Some pos =>
    let close_direction := if Z.ltb 0 (pos_base_asset_amount pos) then Short else Long in
    let close_order :=
      {| order_type := Market; direction := close_direction;
         base_asset_amount := Z.abs (pos_base_asset_amount pos);
         market_index := idx; price := 0; oracle_price_offset := None;
         post_only := false; reduce_only := true |} in
    match s_init_tx env with
    | Err e => (Err e, st1, [])
    | Ok _ =>
      let tx := [CancelAllOrders; PlaceOrders [close_order]] in
      let log := match s_send env with
                 | Ok _ => []
                 | Err e => [LogError ("Failed to cancel and close: " ++ e)] end in
      (Ok tt, st1, Submit tx :: log ++ unsubscribe_step env)
    end
  | None =>
    match s_init_tx env with
    | Err e => (Err e, st1, [])
    | Ok _ =>
      let tx := [CancelAllOrders] in
      let log := match s_send env with
                 | Ok _ => []
                 | Err e => [LogError ("Failed to cancel orders: " ++ e)] end in
      (Ok tt, st1, Submit tx :: log ++ unsubscribe_step env)
    end
  end.

End OLM.

(** ** Bot [simple-oracle-limit-maker] *)
Module SOLM.

Open Scope R_scope.

(** The file's own precision constants (f64). *)
Definition BASE_PRECISION : R := 1000000000.
Definition QUOTE_PRECISION : R := 1000000.

(** [BotConfig]. *)
Record BotConfig := {
  target_market : string;
  order_size : R;
  max_position : R;
  base_spread_bps : N;               (* u16 *)
  max_skew_bps : N;                  (* u16 *)
  debounce_ms : Z;                   (* u64 *)
  oracle_change_threshold_bps : N;   (* u16 *)
  authority : option string;
  subaccount_id : Z
}.

(** [QuoteParams]. *)
Record QuoteParams := {
  bid_offset_bps : R;
  ask_offset_bps : R;
  size : R
}.

(** The mutable fields of [OracleLimitMakerBot]. *)
Record Bot := {
  oracle_price : Z;         (* i64 *)
  prev_oracle_price : Z;    (* i64 *)
  last_oracle_update : Z;   (* u64 *)
  has_active_orders : bool;
  is_running : bool;
  is_processing : bool
}.

(** The state built by [new]; [initial_oracle] is the answer of
    [client.oracle_price(market_id)] at construction. *)
Definition new_bot (initial_oracle : option Z) : Bot :=
  {| oracle_price := match initial_oracle with Some p => p | None => 0%Z end;
     prev_oracle_price := 0; last_oracle_update := 0;
     has_active_orders := false; is_running := false; is_processing := false |}.

Definition set_running (v : bool) (b : Bot) : Bot :=
  {| oracle_price := oracle_price b; prev_oracle_price := prev_oracle_price b;
     last_oracle_update := last_oracle_update b; has_active_orders := has_active_orders b;
     is_running := v; is_processing := is_processing b |}.

Definition set_processing (v : bool) (b : Bot) : Bot :=
  {| oracle_price := oracle_price b; prev_oracle_price := prev_oracle_price b;
     last_oracle_update := last_oracle_update b; has_active_orders := has_active_orders b;
     is_running := is_running b; is_processing := v |}.

Definition set_active_orders (v : bool) (b : Bot) : Bot :=
  {| oracle_price := oracle_price b; prev_oracle_price := prev_oracle_price b;
     last_oracle_update := last_oracle_update b; has_active_orders := v;
     is_running := is_running b; is_processing := is_processing b |}.

Definition N2R (n : N) : R := IZR (Z.of_N n).

(** [should_update_quotes]; [now] is [get_current_timestamp()]. *)
Definition should_update_quotes (cfg : BotConfig) (b : Bot) (now new_price : Z) : bool :=
  if Z.ltb (u64_sub now (last_oracle_update b)) (debounce_ms cfg) then false
  else if Z.ltb 0 (prev_oracle_price b) then
    let change_bps :=
      f64_mul (f64_div (f64_of_Z (i64_abs (i64_wrap (new_price - prev_oracle_price b))))
                       (f64_of_Z (prev_oracle_price b)))
              (f64_of_Z 10000) in
    if f64_lt change_bps (f64_of_Z (Z.of_N (oracle_change_threshold_bps cfg))) then false else true
  else true.

(** [calculate_quotes]. *)
Definition calculate_quotes (cfg : BotConfig) (current_position : R) : QuoteParams :=
  let base_spread_bps := N2R (base_spread_bps cfg) in
  let half_spread_bps := base_spread_bps / 2 in
  let position_ratio := current_position / max_position cfg in
  let skew_bps := f64_abs position_ratio * N2R (max_skew_bps cfg) in
  let '(bid_offset_bps, ask_offset_bps) :=
    if Rlt_dec 0 current_position then
      (half_spread_bps + skew_bps, f64_max (half_spread_bps - skew_bps) 1)
    else if Rlt_dec current_position 0 then
      (f64_max (half_spread_bps - skew_bps) 1, half_spread_bps + skew_bps)
    else (half_spread_bps, half_spread_bps) in
  {| bid_offset_bps := bid_offset_bps; ask_offset_bps := ask_offset_bps;
     size := order_size cfg |}.

(** Lines 297-299 of [update_orders]: the i32 oracle offsets of the bid and
    the ask ([-(x) as i32]: the negation binds tighter than the cast). *)
Definition price_offsets (oracle : Z) (quotes : QuoteParams) : Z * Z :=
  let oracle_price_f64 := IZR oracle in
  (f64_as_i32 (- (oracle_price_f64 * bid_offset_bps quotes / 10000)),
   f64_as_i32 (oracle_price_f64 * ask_offset_bps quotes / 10000)).

(** The two orders of [update_orders]. *)
Definition quote_orders (idx : Z) (oracle : Z) (quotes : QuoteParams) : list OrderParams :=
  let '(bid_price_offset, ask_price_offset) := price_offsets oracle quotes in
  [ {| order_type := Limit; direction := Long;
       base_asset_amount := f64_as_u64 (size quotes * BASE_PRECISION);
       market_index := idx; price := 0; oracle_price_offset := Some bid_price_offset;
       post_only := true; reduce_only := false |};
    {| order_type := Limit; direction := Short;
       base_asset_amount := f64_as_u64 (size quotes * BASE_PRECISION);
       market_index := idx; price := 0; oracle_price_offset := Some ask_price_offset;
       post_only := true; reduce_only := false |} ].

(** [update_orders]. *)
Definition update_orders (idx : Z) (b : Bot) (quotes : QuoteParams) (tk : Tick)
    : Result unit * Bot * list Effect :=
  match t_init_tx tk with
  | Err e => (Err e, b, [])
  | Ok _ =>
    let tx := [CancelOrders idx; PlaceOrders (quote_orders idx (oracle_price b) quotes)] in
    match t_send tk with
    | Err e => (Err e, b, [Submit tx])
    | Ok _ => (Ok tt, set_active_orders true b, [Submit tx])
    end
  end.

(** [handle_oracle_update]. *)
Definition handle_oracle_update (cfg : BotConfig) (idx : Z) (b : Bot) (new_oracle_price : Z)
    (tk : Tick) : Result unit * Bot * list Effect :=
  if is_processing b then (Ok tt, b, [])
  else
    let b1 :=
      {| oracle_price := new_oracle_price; prev_oracle_price := oracle_price b;
         last_oracle_update := t_now_update tk; has_active_orders := has_active_orders b;
         is_running := is_running b; is_processing := true |} in
    match OLM.get_current_position idx (t_user_account tk) with
    | Err e => (Err e, b1, [])
    | Ok current_position =>
      let position_size :=
        IZR (match current_position with Some p => pos_base_asset_amount p | None => 0%Z end)
        / BASE_PRECISION in
      let quotes := calculate_quotes cfg position_size in
      match update_orders idx b1 quotes tk with
      | (Err e, b2, eff) => (Err e, b2, eff)
      | (Ok _, b2, eff) => (Ok tt, set_processing false b2, eff)
      end
    end.

(** [process_cycle]; a failed [client.oracle_price(..)] is propagated by
    [?] (the client's error text is not modelled). *)
Definition process_cycle (cfg : BotConfig) (idx : Z) (b : Bot) (tk : Tick)
    : Result unit * Bot * list Effect :=
  if is_processing b then (Ok tt, b, [])
  else
    match t_oracle tk with
    | None => (Err "oracle price unavailable", b, [])
    | Some current_price =>
      if should_update_quotes cfg b (t_now_gate tk) current_price then
        handle_oracle_update cfg idx b current_price tk
      else (Ok tt, b, [])
    end.

(** The [while self.is_running] loop of [start], over the ticks that happen
    before an interruption. *)
Fixpoint run (cfg : BotConfig) (idx : Z) (b : Bot) (ticks : list Tick)
    : LoopEnd * Bot * list Effect :=
  match ticks with
  | [] => (Interrupted, b, [])
  | tk :: rest =>
    if is_running b then
      let '(r, b1, eff) := process_cycle cfg idx b tk in
      let eff1 := match r with
                  | Err e => eff ++ [LogError ("Trading cycle failed: " ++ e); Sleep 5000]
                  | Ok _ => eff ++ [Sleep (debounce_ms cfg)]
                  end in
      let '(e, b2, eff2) := run cfg idx b1 rest in
      (e, b2, eff1 ++ eff2)
    else (Exited (Ok tt), b, [])
  end.

(** [start]. *)
Definition start (cfg : BotConfig) (idx : Z) (b : Bot) (ticks : list Tick)
    : LoopEnd * Bot * list Effect :=
  run cfg idx (set_running true b) ticks.

(** The gate decisions taken along a run: [Some d] when [process_cycle]
    evaluated [should_update_quotes] and it returned [d]. *)
Fixpoint decisions (cfg : BotConfig) (idx : Z) (b : Bot) (ticks : list Tick)
    : list (option bool) :=
  match ticks with
  | [] => []
  | tk :: rest =>
    if is_running b then
      let d := if is_processing b then None
               else match t_oracle tk with
                    | None => None
                    | Some p => Some (should_update_quotes cfg b (t_now_gate tk) p)
                    end in
      let '(_, b1, _) := process_cycle cfg idx b tk in
      d :: decisions cfg idx b1 rest
    else []
  end.

(** Responses of the client during [stop], per call site. *)
Record StopEnv := {
  s_cancel_init_tx : Result unit;
  s_cancel_send : Result string;
  s_user_account : Result (list PerpPosition);
  s_close_init_tx : Result unit;
  s_close_send : Result string;
  s_unsubscribe : Result unit
}.

(** [stop] (returns [()]). *)
Definition stop (idx : Z) (b : Bot) (env : StopEnv) : Bot * list Effect :=
  let b1 := set_running false b in
  let cancel :=
    if has_active_orders b then
      match s_cancel_init_tx env with
      | Ok _ =>
        Submit [CancelAllOrders] ::
        match s_cancel_send env with
        | Err e => [LogError ("Failed to cancel orders during shutdown: " ++ e)]
        | Ok _ => []
        end
      | Err _ => []
      end
    else [] in
  let close :=
    match OLM.get_current_position idx (s_user_account env) with
    | Ok (Some pos) =>
      if Z.eqb (pos_base_asset_amount pos) 0 then []
      else
        let close_direction := if Z.ltb 0 (pos_base_asset_amount pos) then Short else Long in
        let close_order :=
          {| order_type := Market; direction := close_direction;
             base_asset_amount := Z.abs (pos_base_asset_amount pos);
             market_index := idx; price := 0; oracle_price_offset := None;
             post_only := false; reduce_only := true |} in
        match s_close_init_tx env with
        | Ok _ =>
          Submit [PlaceOrders [close_order]] ::
          match s_close_send env with
          | Err e => [LogError ("Failed to close position during shutdown: " ++ e)]
          | Ok _ => []
          end
        | Err _ => []
        end
    | _ => []
    end in
  let unsub :=
    Unsubscribe ::
    match s_unsubscribe env with
    | Err e => [LogError ("Failed to unsubscribe: " ++ e)]
    | Ok _ => []
    end in
  (b1, cancel ++ close ++ unsub).

End SOLM.

(** ** Configurations of the two [main.rs] *)

Definition OLM_main_config : OLM.BotConfig :=
  {| OLM.target_market := "BTC-PERP"; OLM.order_size := 0.001;
     OLM.max_position_size := 0.01; OLM.spread_multiplier := 1.5;
     OLM.debounce_ms := 1000; OLM.oracle_change_threshold_bps := binary_normalize 24 128 1 (-1) false; (* 0.5 *)
     OLM.authority := None; OLM.subaccount_id := 0 |}.

Definition SOLM_main_config : SOLM.BotConfig :=
  {| SOLM.target_market := "BTC-PERP"; SOLM.order_size := 0.001;
     SOLM.max_position := 0.01; SOLM.base_spread_bps := 2; SOLM.max_skew_bps := 10;
     SOLM.debounce_ms := 500; SOLM.oracle_change_threshold_bps := 2;
     SOLM.authority := None; SOLM.subaccount_id := 0 |}.

(** Configuration fields that the quoting logic of each bot reads (the
    market symbol, signer and subaccount only select accounts). *)
Definition OLM_quoting_fields (cfg : OLM.BotConfig) : R * R * R * Z * spec_float :=
  (OLM.order_size cfg, OLM.max_position_size cfg, OLM.spread_multiplier cfg,
   OLM.debounce_ms cfg, OLM.oracle_change_threshold_bps cfg).

Definition SOLM_quoting_fields (cfg : SOLM.BotConfig) : R * R * N * N * Z * N :=
  (SOLM.order_size cfg, SOLM.max_position cfg, SOLM.base_spread_bps cfg,
   SOLM.max_skew_bps cfg, SOLM.debounce_ms cfg, SOLM.oracle_change_threshold_bps cfg).

(** ** The update gate as the specification states it (section 4.1) *)
Module Spec.

Open Scope R_scope.

(** [changeBps = |newPrice - previousOraclePrice| / |previousOraclePrice| * 10000]. *)
Definition change_bps (newPrice previousOraclePrice : Z) : R :=
  Rabs (IZR newPrice - IZR previousOraclePrice) / Rabs (IZR previousOraclePrice) * 10000.


End Spec.

(** ** Sample client responses *)

(** A sample tick of [simple-oracle-limit-maker]: the oracle reads 100.06,
    the account is fetched, the transaction is built, and [sign_and_send]
    fails. *)
Definition tick_send_fails : Tick :=
  {| t_oracle := Some 100060000%Z; t_now_gate := 5000; t_l2 := {| bids := []; asks := [] |};
     t_user_account := Ok []; t_now_update := 5001; t_init_tx := Ok tt;
     t_send := Err "transaction rejected"%string |}.

(** A sample tick whose account fetch fails. *)
Definition tick_account_fails : Tick :=
  {| t_oracle := Some 100060000%Z; t_now_gate := 5000; t_l2 := {| bids := []; asks := [] |};
     t_user_account := Err "rpc error"%string; t_now_update := 5001; t_init_tx := Ok tt;
     t_send := Ok "sig"%string |}.

(** A tick whose oracle read fails. *)
Definition tick_no_oracle : Tick :=
  {| t_oracle := None; t_now_gate := 5000; t_l2 := {| bids := []; asks := [] |};
     t_user_account := Ok []; t_now_update := 5001; t_init_tx := Ok tt;
     t_send := Ok "sig"%string |}.

(** [stop] responses: the account holds +0.01 base units (1e7 at 1e9
    precision) and the first [init_tx] call fails. *)
Definition olm_stop_env_init_fails : OLM.StopEnv :=
  {| OLM.s_user_account := Ok [ {| pos_market_index := 0; pos_base_asset_amount := 10000000 |} ];
     OLM.s_init_tx := Err "rpc error"%string; OLM.s_send := Ok "sig"%string;
     OLM.s_unsubscribe := Ok tt |}.

Definition solm_stop_env_cancel_fails : SOLM.StopEnv :=
  {| SOLM.s_cancel_init_tx := Ok tt; SOLM.s_cancel_send := Err "cancel rejected"%string;
     SOLM.s_user_account := Ok [ {| pos_market_index := 0; pos_base_asset_amount := 10000000 |} ];
     SOLM.s_close_init_tx := Ok tt; SOLM.s_close_send := Ok "sig"%string;
     SOLM.s_unsubscribe := Ok tt |}.

(** The reduce-only market order that flattens +0.01 base units. *)
Definition close_order_short_001 : OrderParams :=
  {| order_type := Market; direction := Short; base_asset_amount := 10000000;
     market_index := 0; price := 0; oracle_price_offset := None;
     post_only := false; reduce_only := true |}.

(** ** Entry points ([main.rs]) *)

(** Outcome of a bot's [new]: the market index, an error that [new]
    returns with [?] (which [main] returns in turn: exit code 1), or a panic
    of an [expect] or [unwrap] (exit code 101). *)
Inductive NewOutcome :=
| NewOk (market_index : Z)
| NewErr (e : string)
| NewPanic (msg : string).

(** [main] of [oracle-limit-maker]: [new_result] is the outcome of
    [OracleLimitMakerBot::new] (a missing [RPC_ENDPOINT], [PRIVATE_KEY],
    [GRPC_URL] or [GRPC_X_TOKEN] panics in [env::var(..).expect]; an
    invalid key, a failed [DriftClient::new], an unknown market or a failed
    gRPC subscription is returned by [?]); [ticks] are the loop iterations
    that complete before Ctrl+C; [env] the client responses during [stop].
    Returns the process exit code ([main] returning [Err] and
    [std::process::exit(1)] both give 1, a panic gives 101) and the
    effects. *)
Definition olm_main (new_result : NewOutcome) (ticks : list Tick) (env : OLM.StopEnv)
    : Z * list Effect :=
  match new_result with
  | NewErr _ => (1%Z, [])
  | NewPanic _ => (101%Z, [])
  | NewOk idx =>
    let '(e, st, eff) := OLM.start OLM_main_config idx OLM.state_default ticks in
    match e with
    | Exited (Err m) => (1%Z, eff ++ [LogError ("Bot encountered fatal error: " ++ m)])
    | Exited (Ok _) => (0%Z, eff)
    | Interrupted =>
      let '(r, _, eff2) := OLM.stop OLM_main_config idx st env in
      (0%Z, eff ++ eff2 ++
            match r with
            | Err m => [LogError ("Error during shutdown: " ++ m)]
            | Ok _ => []
            end)
    end
  end.

(** [main] of [simple-oracle-limit-maker]: [new_result] is the outcome of
    [new] ([init_drift_client] panics on a missing environment variable
    ([expect]), an invalid [PRIVATE_KEY] ([unwrap]) and a failed
    [DriftClient::new] ([expect]); a failed gRPC subscription and an
    unknown market are returned by [?]), [init_oracle] the answer of
    [client.oracle_price] in [new]. *)
Definition solm_main (new_result : NewOutcome) (init_oracle : option Z) (ticks : list Tick)
    (env : SOLM.StopEnv) : Z * list Effect :=
  match new_result with
  | NewErr _ => (1%Z, [])
  | NewPanic _ => (101%Z, [])
  | NewOk idx =>
    let '(e, b, eff) := SOLM.start SOLM_main_config idx (SOLM.new_bot init_oracle) ticks in
    match e with
    | Exited (Err m) => (1%Z, eff ++ [LogError ("Bot encountered fatal error: " ++ m)])
    | Exited (Ok _) => (0%Z, eff)
    | Interrupted =>
      let '(_, eff2) := SOLM.stop idx b env in
      (0%Z, eff ++ eff2)
    end
  end.

(** ** Observations on effect logs and order-book sides *)

Definition is_submit (e : Effect) : bool :=
  match e with Submit _ => true | _ => false end.

(** Number of transactions a log submits. *)
Definition count_submits (eff : list Effect) : nat := length (filter is_submit eff).

Definition is_sleep (e : Effect) : bool :=
  match e with Sleep _ => true | _ => false end.

(** Number of sleeps in a log. *)
Definition count_sleeps (eff : list Effect) : nat := length (filter is_sleep eff).

(** The cycles of a run of [SOLM.run]: the bot at the start of each cycle,
    with the tick of that cycle. *)
Fixpoint solm_cycles (cfg : SOLM.BotConfig) (idx : Z) (b : SOLM.Bot) (ticks : list Tick)
    : list (SOLM.Bot * Tick) :=
  match ticks with
  | [] => []
  | tk :: rest =>
    if SOLM.is_running b then
      (b, tk) :: solm_cycles cfg idx (snd (fst (SOLM.process_cycle cfg idx b tk))) rest
    else []
  end.

(** The signed base amount an order adds to a position (long positive). *)
Definition signed_amount (o : OrderParams) : Z :=
  match direction o with
  | Long => base_asset_amount o
  | Short => - base_asset_amount o
  end.

(** The [BTreeMap] invariant of a side of the snapshot: keys strictly
    ascending (the list is the map's iteration order). *)
Fixpoint keys_ascending (m : BTreeMap) : bool :=
  match m with
  | e1 :: ((e2 :: _) as rest) => Z.ltb (fst e1) (fst e2) && keys_ascending rest
  | _ => true
  end.

(** * Properties *)

Open Scope R_scope.

(** ** Real-number helpers *)

Lemma IZR_div_le (x y u v : Z) :
  (0 < y)%Z -> (0 < v)%Z -> (x * v <= u * y)%Z -> IZR x / IZR y <= IZR u / IZR v.
Proof.
  intros Hy Hv H.
  apply IZR_lt in Hy, Hv. apply IZR_le in H. rewrite !mult_IZR in H.
  apply Rmult_le_reg_r with (IZR y * IZR v); [nra|].
  replace (IZR x / IZR y * (IZR y * IZR v)) with (IZR x * IZR v) by (field; lra).
  replace (IZR u / IZR v * (IZR y * IZR v)) with (IZR u * IZR y) by (field; lra).
  exact H.
Qed.

Lemma IZR_div_pow (a b : Z) (n : nat) :
  (IZR a / IZR b) ^ n = IZR (a ^ Z.of_nat n) / IZR (b ^ Z.of_nat n).
Proof. unfold Rdiv. rewrite Rpow_mult_distr, pow_inv, !pow_IZR. reflexivity. Qed.

Lemma exp_mult_nat (n : nat) (x : R) : exp (INR n * x) = exp x ^ n.
Proof.
  induction n as [|n IH].
  - rewrite Rmult_0_l. simpl. apply exp_0.
  - rewrite S_INR, Rmult_plus_distr_r, Rmult_1_l, exp_plus, IH. simpl. ring.
Qed.

Lemma exp1_as_pow : exp 1 = exp (/ 512) ^ 512.
Proof. rewrite <- exp_mult_nat. f_equal. rewrite INR_IZR_INZ. simpl. field. Qed.

Lemma exp1_lower : 2.71 <= exp 1.
Proof.
  rewrite exp1_as_pow.
  apply Rle_trans with ((IZR 513 / IZR 512) ^ 512).
  - rewrite IZR_div_pow. replace 2.71 with (IZR 271 / IZR 100) by lra.
    apply IZR_div_le; [reflexivity | vm_compute; reflexivity | vm_compute; discriminate].
  - apply pow_incr. split; [lra|].
    pose proof (exp_ineq1_le (/ 512)). lra.
Qed.

Lemma exp1_upper : exp 1 <= 2.721.
Proof.
  rewrite exp1_as_pow.
  apply Rle_trans with ((IZR 512 / IZR 511) ^ 512).
  - apply pow_incr. split; [left; apply exp_pos|].
    pose proof (exp_ineq1_le (- / 512)) as H.
    rewrite exp_Ropp in H.
    pose proof (exp_pos (/ 512)) as Hp.
    apply Rmult_le_compat_r with (r := exp (/ 512)) in H; [|lra].
    rewrite Rinv_l in H by lra.
    lra.
  - rewrite IZR_div_pow. replace 2.721 with (IZR 2721 / IZR 1000) by lra.
    apply IZR_div_le; [vm_compute; reflexivity | reflexivity | vm_compute; discriminate].
Qed.

Lemma tanh1_bounds : 0.76 < tanh 1 < 0.7625.
Proof.
  pose proof exp1_lower. pose proof exp1_upper.
  unfold tanh, sinh, cosh. rewrite exp_Ropp.
  set (e := exp 1) in *.
  assert (He : 0 < e) by lra.
  assert (Hq : (e - / e) / 2 / ((e + / e) / 2) = (e * e - 1) / (e * e + 1))
    by (field; nra).
  rewrite Hq.
  split.
  - apply Rmult_lt_reg_r with (e * e + 1); [nra|].
    unfold Rdiv. rewrite Rmult_assoc, Rinv_l by nra. nra.
  - apply Rmult_lt_reg_r with (e * e + 1); [nra|].
    unfold Rdiv. rewrite Rmult_assoc, Rinv_l by nra. nra.
Qed.

(** ** Inventory skew and dynamic sizing of [oracle-limit-maker] *)

Lemma Rabs_02 : Rabs 0.2 = 0.2.
Proof. apply Rabs_pos_eq. lra. Qed.

(** C5: [calculate_inventory_skew] is (1, 1) for [|r| <= 0.1]; otherwise,
    with [skew = 0.8 * tanh(|r| / 0.2)], it is [(1 + skew, 1 - skew)] for a
    long position and [(1 - skew, 1 + skew)] for a short one.  At [r = 0.2]
    the skew is [0.8 * tanh 1], within 0.001 of 0.609, and the multipliers
    are within 0.001 of (1.609, 0.391). *)
Theorem olm_inventory_skew_model :
  (forall r, Rabs r <= 0.1 -> OLM.calculate_inventory_skew r = (1, 1)) /\
  (forall r, 0.1 < Rabs r -> 0 < r ->
     OLM.calculate_inventory_skew r =
       (1 + 0.8 * tanh (Rabs r / 0.2), 1 - 0.8 * tanh (Rabs r / 0.2))) /\
  (forall r, 0.1 < Rabs r -> r < 0 ->
     OLM.calculate_inventory_skew r =
       (1 - 0.8 * tanh (Rabs r / 0.2), 1 + 0.8 * tanh (Rabs r / 0.2))) /\
  (OLM.calculate_inventory_skew 0.2 = (1 + 0.8 * tanh 1, 1 - 0.8 * tanh 1) /\
   Rabs (0.8 * tanh 1 - 0.609) < 0.001 /\
   Rabs (1 + 0.8 * tanh 1 - 1.609) < 0.001 /\
   Rabs (1 - 0.8 * tanh 1 - 0.391) < 0.001).
Proof.
  unfold OLM.calculate_inventory_skew, f64_abs.
  split; [|split; [|split]].
  - intros r H. destruct (Rle_dec (Rabs r) 0.1); [reflexivity | contradiction].
  - intros r H Hpos. destruct (Rle_dec (Rabs r) 0.1); [lra|].
    destruct (Rlt_dec 0 r); [reflexivity | contradiction].
  - intros r H Hneg. destruct (Rle_dec (Rabs r) 0.1); [lra|].
    destruct (Rlt_dec 0 r); [lra | reflexivity].
  - pose proof tanh1_bounds as Ht.
    rewrite Rabs_02.
    replace (0.2 / 0.2) with 1 by (field; lra).
    destruct (Rle_dec 0.2 0.1); [lra|].
    destruct (Rlt_dec 0 0.2); [|lra].
    split; [reflexivity|].
    split; [|split]; apply Rabs_def1; lra.
Qed.

(** C6: [calculate_dynamic_sizing base r] gives 0 to the side that would grow
    the position and [base] to the other when [|r| >= 1]; scales the growing
    side by [1 - (|r| - 0.2) / (1 - 0.2)] when [0.2 < |r| < 1]; and keeps both
    sides at [base] when [|r| <= 0.2].  In particular [r = 1.0] gives
    [(0, base)] and [r = 0.1] gives [(base, base)]. *)
Theorem olm_dynamic_sizing_model :
  (forall base r, 1 <= Rabs r -> 0 < r -> OLM.calculate_dynamic_sizing base r = (0, base)) /\
  (forall base r, 1 <= Rabs r -> r < 0 -> OLM.calculate_dynamic_sizing base r = (base, 0)) /\
  (forall base r, 0.2 < Rabs r < 1 -> 0 < r ->
     OLM.calculate_dynamic_sizing base r =
       (base * (1 - (Rabs r - 0.2) / (1 - 0.2)), base)) /\
  (forall base r, 0.2 < Rabs r < 1 -> r < 0 ->
     OLM.calculate_dynamic_sizing base r =
       (base, base * (1 - (Rabs r - 0.2) / (1 - 0.2)))) /\
  (forall base r, Rabs r <= 0.2 -> OLM.calculate_dynamic_sizing base r = (base, base)) /\
  (forall base, OLM.calculate_dynamic_sizing base 1.0 = (0, base)) /\
  (forall base, OLM.calculate_dynamic_sizing base 0.1 = (base, base)).
Proof.
  assert (Hslope : forall a, -1 / (1 - 0.2) * a + - (-1 / (1 - 0.2)) = 1 - (a - 0.2) / (1 - 0.2))
    by (intro a; field; lra).
  assert (Hsmall : forall base r, Rabs r <= 0.2 ->
            OLM.calculate_dynamic_sizing base r = (base, base)).
  { intros base r H. unfold OLM.calculate_dynamic_sizing, f64_abs.
    destruct (Rle_dec 1 (Rabs r)); [lra|].
    destruct (Rlt_dec 0.2 (Rabs r)); [lra|].
    destruct (Rlt_dec 0 r); [rewrite Rmult_1_r; reflexivity|].
    destruct (Rlt_dec r 0); [rewrite Rmult_1_r|]; reflexivity. }
  unfold OLM.calculate_dynamic_sizing, f64_abs in *.
  split; [|split; [|split; [|split; [|split; [|split]]]]].
  - intros base r H Hp. destruct (Rle_dec 1 (Rabs r)); [|lra].
    destruct (Rlt_dec 0 r); [reflexivity | lra].
  - intros base r H Hn. destruct (Rle_dec 1 (Rabs r)); [|lra].
    destruct (Rlt_dec 0 r); [lra | reflexivity].
  - intros base r H Hp. destruct (Rle_dec 1 (Rabs r)); [lra|].
    destruct (Rlt_dec 0.2 (Rabs r)); [|lra].
    destruct (Rlt_dec 0 r); [|lra]. rewrite Hslope. reflexivity.
  - intros base r H Hn. destruct (Rle_dec 1 (Rabs r)); [lra|].
    destruct (Rlt_dec 0.2 (Rabs r)); [|lra].
    destruct (Rlt_dec 0 r); [lra|]. destruct (Rlt_dec r 0); [|lra].
    rewrite Hslope. reflexivity.
  - exact Hsmall.
  - intro base. rewrite Rabs_pos_eq by lra.
    destruct (Rle_dec 1 1.0); [|lra]. destruct (Rlt_dec 0 1.0); [reflexivity | lra].
  - intro base. apply Hsmall. rewrite Rabs_pos_eq; lra.
Qed.

(** ** Update gate *)


Lemma u64_sub_back (now last d : Z) :
  (0 <= now < last)%Z -> (last < 2 ^ 64)%Z -> (d <= 2 ^ 64 - (last - now))%Z ->
  Z.ltb (u64_sub now last) d = false.
Proof.
  intros H1 H2 H3. unfold u64_sub.
  replace ((now - last) mod 2 ^ 64)%Z with (now - last + 2 ^ 64)%Z.
  - apply Z.ltb_ge. lia.
  - symmetry. rewrite <- (Z.mod_small (now - last + 2 ^ 64) (2 ^ 64)) by lia.
    rewrite <- Zplus_mod_idemp_r, Z_mod_same_full, Z.add_0_r. reflexivity.
Qed.



(** ** Linear basis-point policy of [simple-oracle-limit-maker] *)

(** C7: [calculate_quotes] starts both sides at [base_spread_bps / 2], uses
    [skew_bps = |position / max_position| * max_skew_bps], adds the skew to
    the bid and subtracts it from the ask (floored at 1 bps) for a long
    position, mirrors this for a short one, and leaves both sides at the
    half spread when flat; the tightened side is always at least 1 bps. *)
Theorem solm_linear_skew_policy :
  forall cfg pos,
    let half := SOLM.N2R (SOLM.base_spread_bps cfg) / 2 in
    let skew := Rabs (pos / SOLM.max_position cfg) * SOLM.N2R (SOLM.max_skew_bps cfg) in
    let q := SOLM.calculate_quotes cfg pos in
    0 <= skew /\
    (0 < pos -> SOLM.bid_offset_bps q = half + skew /\
                SOLM.ask_offset_bps q = Rmax (half - skew) 1 /\
                1 <= SOLM.ask_offset_bps q) /\
    (pos < 0 -> SOLM.bid_offset_bps q = Rmax (half - skew) 1 /\
                SOLM.ask_offset_bps q = half + skew /\
                1 <= SOLM.bid_offset_bps q) /\
    (pos = 0 -> SOLM.bid_offset_bps q = half /\ SOLM.ask_offset_bps q = half).
Proof.
  intros cfg pos half skew q.
  assert (Hk : 0 <= skew).
  { unfold skew, SOLM.N2R. apply Rmult_le_pos; [apply Rabs_pos|].
    apply IZR_le. apply N2Z.is_nonneg. }
  subst q. unfold SOLM.calculate_quotes, f64_abs, f64_max.
  fold half skew.
  split; [exact Hk|]. split; [|split].
  - intro H. destruct (Rlt_dec 0 pos); [|lra]. simpl.
    split; [reflexivity|]. split; [reflexivity|]. apply Rmax_r.
  - intro H. destruct (Rlt_dec 0 pos); [lra|]. destruct (Rlt_dec pos 0); [|lra]. simpl.
    split; [reflexivity|]. split; [reflexivity|]. apply Rmax_r.
  - intro H. destruct (Rlt_dec 0 pos); [lra|]. destruct (Rlt_dec pos 0); [lra|].
    simpl. split; reflexivity.
Qed.

(** ** Truncating casts *)

Lemma Int_part_le_mono (x y : R) : x <= y -> (Int_part x <= Int_part y)%Z.
Proof.
  intro H.
  destruct (base_Int_part x) as [Hx _]. destruct (base_Int_part y) as [_ Hy].
  assert (IZR (Int_part x) < IZR (Int_part y) + 1) by lra.
  rewrite <- plus_IZR in H0. apply lt_IZR in H0. lia.
Qed.

Lemma Int_part_eq (x : R) (k : Z) : IZR k <= x < IZR k + 1 -> Int_part x = k.
Proof. intro H. symmetry. apply Int_part_spec. lra. Qed.

Lemma Int_part_nonneg (x : R) : 0 <= x -> (0 <= Int_part x)%Z.
Proof.
  intro H. rewrite <- (Int_part_eq 0 0) by lra. apply Int_part_le_mono. exact H.
Qed.

Lemma trunc_le_mono (x y : R) : x <= y -> (trunc x <= trunc y)%Z.
Proof.
  intro H. unfold trunc.
  destruct (Rle_dec 0 x); destruct (Rle_dec 0 y).
  - apply Int_part_le_mono. exact H.
  - lra.
  - pose proof (Int_part_nonneg (- x) ltac:(lra)). pose proof (Int_part_nonneg y ltac:(lra)). lia.
  - pose proof (Int_part_le_mono (- y) (- x) ltac:(lra)). lia.
Qed.

Lemma trunc_nonneg (x : R) : 0 <= x -> (0 <= trunc x)%Z.
Proof.
  intro H. unfold trunc. destruct (Rle_dec 0 x); [apply Int_part_nonneg; exact H | lra].
Qed.

Lemma trunc_nonpos (x : R) : x <= 0 -> (trunc x <= 0)%Z.
Proof.
  intro H. unfold trunc. destruct (Rle_dec 0 x).
  - replace x with 0 by lra. rewrite (Int_part_eq 0 0) by lra. lia.
  - pose proof (Int_part_nonneg (- x) ltac:(lra)). lia.
Qed.

Lemma f64_as_i32_le_mono (x y : R) : x <= y -> (f64_as_i32 x <= f64_as_i32 y)%Z.
Proof. intro H. pose proof (trunc_le_mono x y H). unfold f64_as_i32. lia. Qed.

Lemma f64_as_i32_nonneg (x : R) : 0 <= x -> (0 <= f64_as_i32 x)%Z.
Proof. intro H. pose proof (trunc_nonneg x H). unfold f64_as_i32. lia. Qed.

Lemma f64_as_i32_nonpos (x : R) : x <= 0 -> (f64_as_i32 x <= 0)%Z.
Proof. intro H. pose proof (trunc_nonpos x H). unfold f64_as_i32. lia. Qed.

(** Values strictly between -1 and 1 cast to 0. *)
Lemma f64_as_i32_small (x : R) : -1 < x < 1 -> f64_as_i32 x = 0%Z.
Proof.
  intro H. unfold f64_as_i32, trunc.
  destruct (Rle_dec 0 x).
  - rewrite (Int_part_eq x 0) by lra. reflexivity.
  - rewrite (Int_part_eq (- x) 0) by lra. reflexivity.
Qed.

(** The two skew multipliers always sum to 2. *)
Lemma inventory_skew_sum (r : R) :
  fst (OLM.calculate_inventory_skew r) + snd (OLM.calculate_inventory_skew r) = 2.
Proof.
  unfold OLM.calculate_inventory_skew.
  destruct (Rle_dec _ _); [simpl; lra|].
  destruct (Rlt_dec _ _); simpl; lra.
Qed.

Lemma solm_quote_bps_nonneg (cfg : SOLM.BotConfig) (pos : R) :
  0 <= SOLM.bid_offset_bps (SOLM.calculate_quotes cfg pos) /\
  0 <= SOLM.ask_offset_bps (SOLM.calculate_quotes cfg pos).
Proof.
  assert (Hb : 0 <= SOLM.N2R (SOLM.base_spread_bps cfg))
    by (unfold SOLM.N2R; apply IZR_le; apply N2Z.is_nonneg).
  assert (Hs : 0 <= SOLM.N2R (SOLM.max_skew_bps cfg))
    by (unfold SOLM.N2R; apply IZR_le; apply N2Z.is_nonneg).
  pose proof (Rabs_pos (pos / SOLM.max_position cfg)).
  assert (0 <= Rabs (pos / SOLM.max_position cfg) * SOLM.N2R (SOLM.max_skew_bps cfg))
    by (apply Rmult_le_pos; assumption).
  unfold SOLM.calculate_quotes, f64_abs, f64_max.
  destruct (Rlt_dec 0 pos); [|destruct (Rlt_dec pos 0)]; simpl.
  - pose proof (Rmax_r (SOLM.N2R (SOLM.base_spread_bps cfg) / 2 -
                        Rabs (pos / SOLM.max_position cfg) * SOLM.N2R (SOLM.max_skew_bps cfg)) 1).
    lra.
  - pose proof (Rmax_r (SOLM.N2R (SOLM.base_spread_bps cfg) / 2 -
                        Rabs (pos / SOLM.max_position cfg) * SOLM.N2R (SOLM.max_skew_bps cfg)) 1).
    lra.
  - lra.
Qed.

(** ** Quote offsets *)

(** C2 (counterexample): with a flat position (ratio 0), the quote
    generators can yield [askOffset = bidOffset].  In [oracle-limit-maker]
    (the [main.rs] configuration) on a locked snapshot, best bid = best ask
    = oracle = 100.000000, both offsets are 0; in [simple-oracle-limit-maker]
    (its [main.rs] configuration, 2 bps base spread) at oracle price 5000
    (0.005 in quote units), both [as i32] casts truncate to 0. *)
Lemma quote_offsets_can_coincide :
  let l2 := {| bids := [(100000000%Z, 1%Z)]; asks := [(100000000%Z, 1%Z)] |} in
  OLM.best_bid l2 = Ok 100 /\ OLM.best_ask l2 = Ok 100 /\
  OLM.bid_offset (OLM.compute_quote OLM_main_config 100000000 100 100 0) = 0%Z /\
  OLM.ask_offset (OLM.compute_quote OLM_main_config 100000000 100 100 0) = 0%Z /\
  SOLM.price_offsets 5000 (SOLM.calculate_quotes SOLM_main_config 0) = (0%Z, 0%Z).
Proof.
  intro l2.
  split; [|split; [|split; [|split]]].
  - unfold OLM.best_bid, QUOTE_PRECISION_F64, QUOTE_PRECISION. simpl. f_equal. lra.
  - unfold OLM.best_ask, QUOTE_PRECISION_F64, QUOTE_PRECISION. simpl. f_equal. lra.
  - unfold OLM.compute_quote.
    destruct (OLM.calculate_dynamic_sizing _ _) as [bs as_].
    destruct (OLM.calculate_inventory_skew _) as [bm am].
    simpl. apply f64_as_i32_small.
    unfold QUOTE_PRECISION_F64, QUOTE_PRECISION. lra.
  - unfold OLM.compute_quote.
    destruct (OLM.calculate_dynamic_sizing _ _) as [bs as_].
    destruct (OLM.calculate_inventory_skew _) as [bm am].
    simpl. apply f64_as_i32_small.
    unfold QUOTE_PRECISION_F64, QUOTE_PRECISION. lra.
  - unfold SOLM.calculate_quotes, SOLM.price_offsets.
    destruct (Rlt_dec 0 0); [lra|]. destruct (Rlt_dec 0 0); [lra|].
    simpl. unfold SOLM.N2R. simpl.
    rewrite !f64_as_i32_small by lra. reflexivity.
Qed.

(** C2 (amended): the offsets are only weakly ordered.  The oracle-direct
    quotes of [simple-oracle-limit-maker] satisfy
    [bidOffset <= 0 <= askOffset] for every position and every non-negative
    oracle price, and both offsets are 0 whenever [oracle * bps < 10000] on
    each side, so that both [as i32] casts truncate to 0 (for instance at
    oracle price 5000 with the [main.rs] configuration, flat).  The
    L2-referenced quotes of [oracle-limit-maker] satisfy
    [bidOffset <= askOffset] whenever the snapshot is not crossed
    (best bid <= best ask) and [spread_multiplier >= 0], and on a locked
    book (best bid = best ask) the two offsets are equal, for every
    position, configuration and oracle price. *)
Theorem quote_offsets_ordered :
  (forall cfg pos oracle, (0 <= oracle)%Z ->
     (fst (SOLM.price_offsets oracle (SOLM.calculate_quotes cfg pos)) <= 0 <=
      snd (SOLM.price_offsets oracle (SOLM.calculate_quotes cfg pos)))%Z) /\
  (forall cfg pos oracle, (0 <= oracle)%Z ->
     IZR oracle * SOLM.bid_offset_bps (SOLM.calculate_quotes cfg pos) < 10000 ->
     IZR oracle * SOLM.ask_offset_bps (SOLM.calculate_quotes cfg pos) < 10000 ->
     SOLM.price_offsets oracle (SOLM.calculate_quotes cfg pos) = (0%Z, 0%Z)) /\
  SOLM.price_offsets 5000 (SOLM.calculate_quotes SOLM_main_config 0) = (0%Z, 0%Z) /\
  (forall cfg new_price l2 b a position_base,
     OLM.best_bid l2 = Ok b -> OLM.best_ask l2 = Ok a -> b <= a ->
     0 <= OLM.spread_multiplier cfg ->
     (OLM.bid_offset (OLM.compute_quote cfg new_price b a position_base) <=
      OLM.ask_offset (OLM.compute_quote cfg new_price b a position_base))%Z) /\
  (forall cfg new_price l2 b position_base,
     OLM.best_bid l2 = Ok b -> OLM.best_ask l2 = Ok b ->
     OLM.bid_offset (OLM.compute_quote cfg new_price b b position_base) =
     OLM.ask_offset (OLM.compute_quote cfg new_price b b position_base)).
Proof.
  assert (Hzero : forall cfg pos oracle, (0 <= oracle)%Z ->
     IZR oracle * SOLM.bid_offset_bps (SOLM.calculate_quotes cfg pos) < 10000 ->
     IZR oracle * SOLM.ask_offset_bps (SOLM.calculate_quotes cfg pos) < 10000 ->
     SOLM.price_offsets oracle (SOLM.calculate_quotes cfg pos) = (0%Z, 0%Z)).
  { intros cfg pos oracle Ho Hb Ha.
    destruct (solm_quote_bps_nonneg cfg pos) as [Hb0 Ha0].
    apply IZR_le in Ho.
    assert (0 <= IZR oracle * SOLM.bid_offset_bps (SOLM.calculate_quotes cfg pos))
      by (apply Rmult_le_pos; assumption).
    assert (0 <= IZR oracle * SOLM.ask_offset_bps (SOLM.calculate_quotes cfg pos))
      by (apply Rmult_le_pos; assumption).
    unfold SOLM.price_offsets. simpl.
    rewrite !f64_as_i32_small by lra. reflexivity. }
  split; [|split; [exact Hzero|split; [|split]]].
  - intros cfg pos oracle Ho.
    destruct (solm_quote_bps_nonneg cfg pos) as [Hb Ha].
    apply IZR_le in Ho.
    unfold SOLM.price_offsets; simpl. split.
    + apply f64_as_i32_nonpos.
      assert (0 <= IZR oracle * SOLM.bid_offset_bps (SOLM.calculate_quotes cfg pos))
        by (apply Rmult_le_pos; assumption).
      lra.
    + apply f64_as_i32_nonneg.
      assert (0 <= IZR oracle * SOLM.ask_offset_bps (SOLM.calculate_quotes cfg pos))
        by (apply Rmult_le_pos; assumption).
      lra.
  - apply Hzero; [lia| |];
      unfold SOLM.calculate_quotes;
      (destruct (Rlt_dec 0 0); [lra|]); (destruct (Rlt_dec 0 0); [lra|]);
      simpl; unfold SOLM.N2R; simpl; lra.
  - intros cfg new_price l2 b a position_base _ _ Hba Hm.
    unfold OLM.compute_quote.
    destruct (OLM.calculate_dynamic_sizing _ _) as [bs as_].
    pose proof (inventory_skew_sum (IZR position_base / BASE_PRECISION_F64
                                    / OLM.max_position_size cfg)) as Hsum.
    destruct (OLM.calculate_inventory_skew _) as [bm am]. simpl in Hsum |- *.
    apply f64_as_i32_le_mono.
    apply Rmult_le_compat_r; [unfold QUOTE_PRECISION_F64, QUOTE_PRECISION; lra|].
    assert (0 <= (a - b) * OLM.spread_multiplier cfg) by (apply Rmult_le_pos; lra).
    replace am with (2 - bm) by lra.
    nra.
  - intros cfg new_price l2 b position_base _ _.
    unfold OLM.compute_quote.
    destruct (OLM.calculate_dynamic_sizing _ _) as [bs as_].
    destruct (OLM.calculate_inventory_skew _) as [bm am]. simpl.
    replace (b - b) with 0 by ring.
    f_equal. f_equal. f_equal. field.
Qed.

(** ** Failed update cycles *)

Lemma olm_process_update_err_state (cfg : OLM.BotConfig) (idx : Z) (st : OLM.State)
    (p : Z) (tk : Tick) (e : string) (st' : OLM.State) (eff : list Effect) :
  OLM.process_update cfg idx st p tk = (Err e, st', eff) -> st' = st.
Proof.
  unfold OLM.process_update.
  destruct (OLM.best_bid _); [|congruence].
  destruct (OLM.best_ask _); [|congruence].
  destruct (OLM.get_current_position _ _); [|congruence].
  destruct (t_init_tx tk); [|congruence].
  destruct (t_send tk); congruence.
Qed.

Lemma solm_update_orders_result (idx : Z) (b : SOLM.Bot) (q : SOLM.QuoteParams) (tk : Tick)
    (r : Result unit) (b' : SOLM.Bot) (eff : list Effect) :
  SOLM.update_orders idx b q tk = (r, b', eff) ->
  (b' = b \/ b' = SOLM.set_active_orders true b) /\
  (forall e, r = Err e -> b' = b).
Proof.
  unfold SOLM.update_orders.
  destruct (t_init_tx tk); [|intro H; inversion H; subst; split; [left|]; reflexivity].
  destruct (t_send tk); intro H; inversion H; subst.
  - split; [right; reflexivity | discriminate].
  - split; [left|]; reflexivity.
Qed.

(** C1 (counterexample): in [simple-oracle-limit-maker] an accepted cycle
    whose order submission fails leaves [prev_oracle_price] and
    [last_oracle_update] advanced (from 0 and 0 to 100000000 and 5001). *)
Lemma failed_submit_advances_gate_inputs :
  let b0 := SOLM.set_running true (SOLM.new_bot (Some 100000000%Z)) in
  SOLM.should_update_quotes SOLM_main_config b0 5000 100060000 = true /\
  fst (fst (SOLM.process_cycle SOLM_main_config 0 b0 tick_send_fails))
    = Err "transaction rejected"%string /\
  (exists tx, SOLM.process_cycle SOLM_main_config 0 b0 tick_send_fails
                = (Err "transaction rejected"%string,
                   snd (fst (SOLM.process_cycle SOLM_main_config 0 b0 tick_send_fails)),
                   [Submit tx])) /\
  SOLM.prev_oracle_price b0 = 0%Z /\ SOLM.last_oracle_update b0 = 0%Z /\
  SOLM.prev_oracle_price (snd (fst (SOLM.process_cycle SOLM_main_config 0 b0 tick_send_fails)))
    = 100000000%Z /\
  SOLM.last_oracle_update (snd (fst (SOLM.process_cycle SOLM_main_config 0 b0 tick_send_fails)))
    = 5001%Z.
Proof.
  intro b0.
  split; [reflexivity|]. split; [reflexivity|]. split; [eexists; reflexivity|].
  repeat split; reflexivity.
Qed.

(** C1 (amended): in [oracle-limit-maker] a failed update (order submission
    or any earlier step) leaves the whole [State], hence [prev_oracle_price]
    and [last_update_time], unchanged; in [simple-oracle-limit-maker] a
    failed [handle_oracle_update] has already advanced the gate inputs:
    [prev_oracle_price] holds the oracle price current before the cycle,
    [oracle_price] the new price and [last_oracle_update] the clock read at
    the start of the handling. *)
Theorem failed_update_state :
  (forall cfg idx st p tk e st' eff,
     OLM.process_update cfg idx st p tk = (Err e, st', eff) ->
     OLM.prev_oracle_price st' = OLM.prev_oracle_price st /\
     OLM.last_update_time st' = OLM.last_update_time st /\ st' = st) /\
  (forall cfg idx b p tk e b' eff,
     SOLM.handle_oracle_update cfg idx b p tk = (Err e, b', eff) ->
     SOLM.prev_oracle_price b' = SOLM.oracle_price b /\
     SOLM.oracle_price b' = p /\
     SOLM.last_oracle_update b' = t_now_update tk).
Proof.
  split.
  - intros cfg idx st p tk e st' eff H.
    apply olm_process_update_err_state in H. subst st'. auto.
  - intros cfg idx b p tk e b' eff.
    unfold SOLM.handle_oracle_update.
    destruct (SOLM.is_processing b); [discriminate|].
    destruct (OLM.get_current_position _ _).
    + destruct (SOLM.update_orders _ _ _ _) as [[r b2] eff2] eqn:Hu.
      apply solm_update_orders_result in Hu. destruct Hu as [_ Hu].
      destruct r; intro H; inversion H; subst.
      rewrite (Hu e eq_refl). simpl. auto.
    + intro H; inversion H; subst. simpl. auto.
Qed.

(** ** The reentrancy guard of [simple-oracle-limit-maker] *)

Lemma solm_handle_err_processing (cfg : SOLM.BotConfig) (idx : Z) (b : SOLM.Bot) (p : Z)
    (tk : Tick) (e : string) (b' : SOLM.Bot) (eff : list Effect) :
  SOLM.handle_oracle_update cfg idx b p tk = (Err e, b', eff) -> SOLM.is_processing b' = true.
Proof.
  unfold SOLM.handle_oracle_update.
  destruct (SOLM.is_processing b) eqn:Hp; [discriminate|].
  destruct (OLM.get_current_position _ _).
  - destruct (SOLM.update_orders _ _ _ _) as [[r b2] eff2] eqn:Hu.
    apply solm_update_orders_result in Hu. destruct Hu as [_ Hu].
    destruct r; intro H; inversion H; subst.
    rewrite (Hu e eq_refl). reflexivity.
  - intro H; inversion H; subst. reflexivity.
Qed.

Lemma solm_process_cycle_guarded (cfg : SOLM.BotConfig) (idx : Z) (b : SOLM.Bot) (tk : Tick) :
  SOLM.is_processing b = true -> SOLM.process_cycle cfg idx b tk = (Ok tt, b, []).
Proof. intro H. unfold SOLM.process_cycle. rewrite H. reflexivity. Qed.

Lemma solm_run_guarded (cfg : SOLM.BotConfig) (idx : Z) (ticks : list Tick) :
  forall b, SOLM.is_processing b = true ->
    snd (fst (SOLM.run cfg idx b ticks)) = b /\
    (forall x, In x (snd (SOLM.run cfg idx b ticks)) -> x = Sleep (SOLM.debounce_ms cfg)) /\
    (forall d, ~ In (Some d) (SOLM.decisions cfg idx b ticks)).
Proof.
  induction ticks as [|tk rest IH]; intros b H.
  - simpl. repeat split; [intros x []|intros d []].
  - simpl. rewrite (solm_process_cycle_guarded cfg idx b tk H).
    destruct (SOLM.is_running b).
    + destruct (SOLM.run cfg idx b rest) as [[e b2] eff2] eqn:Hr.
      destruct (IH b H) as [H1 [H2 H3]]. rewrite Hr in H1, H2. simpl in H1, H2.
      simpl. rewrite H. split; [exact H1|]. split.
      * intros x Hx. simpl in Hx. destruct Hx as [Hx|Hx]; [auto|apply H2; exact Hx].
      * intros d [Hd|Hd]; [discriminate|exact (H3 d Hd)].
    + simpl. repeat split; [intros x []|intros d []].
Qed.

(** C10: once [handle_oracle_update] has returned an error (the position
    fetch or the order submission failed) the guard [is_processing] stays
    set; from then on every [process_cycle] returns [Ok] at once, without
    evaluating [should_update_quotes] and without effects, so the rest of
    the run evaluates no gate, submits nothing and only sleeps. *)
Theorem solm_guard_stuck_after_error :
  forall cfg idx b p tk e b' eff,
    SOLM.handle_oracle_update cfg idx b p tk = (Err e, b', eff) ->
    SOLM.is_processing b' = true /\
    (forall tk', SOLM.process_cycle cfg idx b' tk' = (Ok tt, b', [])) /\
    (forall ticks,
       snd (fst (SOLM.run cfg idx b' ticks)) = b' /\
       (forall tx, ~ In (Submit tx) (snd (SOLM.run cfg idx b' ticks))) /\
       (forall d, ~ In (Some d) (SOLM.decisions cfg idx b' ticks))).
Proof.
  intros cfg idx b p tk e b' eff H.
  pose proof (solm_handle_err_processing cfg idx b p tk e b' eff H) as Hp.
  split; [exact Hp|]. split.
  - intro tk'. apply solm_process_cycle_guarded. exact Hp.
  - intro ticks. destruct (solm_run_guarded cfg idx ticks b' Hp) as [H1 [H2 H3]].
    split; [exact H1|]. split; [|exact H3].
    intros tx Hin. apply H2 in Hin. discriminate.
Qed.

Lemma solm_guard_stuck_after_error_witness :
  SOLM.handle_oracle_update SOLM_main_config 0 (SOLM.set_running true (SOLM.new_bot (Some 100000000%Z)))
    100060000 tick_account_fails =
    (Err "rpc error"%string,
     {| SOLM.oracle_price := 100060000; SOLM.prev_oracle_price := 100000000;
        SOLM.last_oracle_update := 5001; SOLM.has_active_orders := false;
        SOLM.is_running := true; SOLM.is_processing := true |}, []) /\
  SOLM.is_processing
    {| SOLM.oracle_price := 100060000; SOLM.prev_oracle_price := 100000000;
       SOLM.last_oracle_update := 5001; SOLM.has_active_orders := false;
       SOLM.is_running := true; SOLM.is_processing := true |} = true /\
  (forall tk', SOLM.process_cycle SOLM_main_config 0
     {| SOLM.oracle_price := 100060000; SOLM.prev_oracle_price := 100000000;
        SOLM.last_oracle_update := 5001; SOLM.has_active_orders := false;
        SOLM.is_running := true; SOLM.is_processing := true |} tk' =
     (Ok tt, {| SOLM.oracle_price := 100060000; SOLM.prev_oracle_price := 100000000;
        SOLM.last_oracle_update := 5001; SOLM.has_active_orders := false;
        SOLM.is_running := true; SOLM.is_processing := true |}, [])).
Proof.
  assert (H : SOLM.handle_oracle_update SOLM_main_config 0
                (SOLM.set_running true (SOLM.new_bot (Some 100000000%Z)))
                100060000 tick_account_fails =
              (Err "rpc error"%string,
               {| SOLM.oracle_price := 100060000; SOLM.prev_oracle_price := 100000000;
                  SOLM.last_oracle_update := 5001; SOLM.has_active_orders := false;
                  SOLM.is_running := true; SOLM.is_processing := true |}, []))
    by reflexivity.
  split; [exact H|].
  destruct (solm_guard_stuck_after_error _ _ _ _ _ _ _ _ H) as [H1 [H2 _]].
  split; [exact H1 | exact H2].
Defined.

(** ** Missing market data *)

(** C4 (counterexample): in [oracle-limit-maker] a missing oracle price
    ends [trading_loop] with an error at once (the [?] on the oracle read);
    the following ticks are never run. *)
Lemma olm_missing_oracle_exits_loop :
  OLM.start OLM_main_config 0 OLM.state_default [tick_no_oracle; tick_send_fails] =
    (Exited (Err "Failed to get oracle price"%string),
     OLM.set_running true OLM.state_default, []).
Proof. reflexivity. Qed.

(** ** Shutdown *)

(** C8 (evaluation at the failing input): with a position of +0.01 and a
    failing [init_tx], [oracle-limit-maker]'s [stop] returns the error: it
    submits no closing order and never unsubscribes.  On the same position
    [simple-oracle-limit-maker]'s [stop], even after its cancel-all step
    failed, submits the one reduce-only short market order of size 0.01 and
    then unsubscribes. *)
Theorem olm_stop_init_tx_error :
  forall st,
    OLM.stop OLM_main_config 0 st olm_stop_env_init_fails =
      (Err "rpc error"%string, OLM.set_running false st, []) /\
    SOLM.stop 0 (SOLM.set_active_orders true (SOLM.new_bot (Some 100000000%Z)))
      solm_stop_env_cancel_fails =
      (SOLM.set_running false (SOLM.set_active_orders true (SOLM.new_bot (Some 100000000%Z))),
       [Submit [CancelAllOrders];
        LogError ("Failed to cancel orders during shutdown: " ++ "cancel rejected");
        Submit [PlaceOrders [close_order_short_001]];
        Unsubscribe]).
Proof. intro st. split; reflexivity. Qed.

(** ** Determinism of replays *)

Lemma olm_loop_body_fields (cfg1 cfg2 : OLM.BotConfig) :
  OLM_quoting_fields cfg1 = OLM_quoting_fields cfg2 ->
  forall idx st tk, OLM.loop_body cfg1 idx st tk = OLM.loop_body cfg2 idx st tk.
Proof.
  destruct cfg1, cfg2. unfold OLM_quoting_fields. simpl.
  intro H. inversion H. subst. reflexivity.
Qed.

Lemma olm_should_update_fields (cfg1 cfg2 : OLM.BotConfig) :
  OLM_quoting_fields cfg1 = OLM_quoting_fields cfg2 ->
  forall st now p, OLM.should_update cfg1 st now p = OLM.should_update cfg2 st now p.
Proof.
  destruct cfg1, cfg2. unfold OLM_quoting_fields. simpl.
  intro H. inversion H. subst. reflexivity.
Qed.

Lemma olm_replay_fields (cfg1 cfg2 : OLM.BotConfig) (idx : Z) :
  OLM_quoting_fields cfg1 = OLM_quoting_fields cfg2 ->
  forall ticks st,
    OLM.decisions cfg1 idx st ticks = OLM.decisions cfg2 idx st ticks /\
    OLM.trading_loop_run cfg1 idx st ticks = OLM.trading_loop_run cfg2 idx st ticks.
Proof.
  intros H ticks. induction ticks as [|tk rest IH]; intro st; [split; reflexivity|].
  simpl. rewrite (olm_loop_body_fields cfg1 cfg2 H).
  destruct (OLM.is_running st); [|split; reflexivity].
  destruct (t_oracle tk) as [p|]; [rewrite (olm_should_update_fields cfg1 cfg2 H)|].
  - destruct (OLM.loop_body cfg2 idx st tk) as [[st' eff]|]; [|split; reflexivity].
    destruct (IH st') as [H1 H2]. rewrite H1, H2. split; reflexivity.
  - destruct (OLM.loop_body cfg2 idx st tk) as [[st' eff]|]; [|split; reflexivity].
    destruct (IH st') as [H1 H2]. rewrite H2. split; reflexivity.
Qed.

Lemma solm_process_cycle_fields (cfg1 cfg2 : SOLM.BotConfig) :
  SOLM_quoting_fields cfg1 = SOLM_quoting_fields cfg2 ->
  forall idx b tk, SOLM.process_cycle cfg1 idx b tk = SOLM.process_cycle cfg2 idx b tk.
Proof.
  destruct cfg1, cfg2. unfold SOLM_quoting_fields. simpl.
  intro H. inversion H. subst. reflexivity.
Qed.

Lemma solm_should_update_fields (cfg1 cfg2 : SOLM.BotConfig) :
  SOLM_quoting_fields cfg1 = SOLM_quoting_fields cfg2 ->
  forall b now p, SOLM.should_update_quotes cfg1 b now p = SOLM.should_update_quotes cfg2 b now p.
Proof.
  destruct cfg1, cfg2. unfold SOLM_quoting_fields. simpl.
  intro H. inversion H. subst. reflexivity.
Qed.

Lemma solm_replay_fields (cfg1 cfg2 : SOLM.BotConfig) (idx : Z) :
  SOLM_quoting_fields cfg1 = SOLM_quoting_fields cfg2 ->
  forall ticks b,
    SOLM.decisions cfg1 idx b ticks = SOLM.decisions cfg2 idx b ticks /\
    SOLM.run cfg1 idx b ticks = SOLM.run cfg2 idx b ticks.
Proof.
  intros H ticks. induction ticks as [|tk rest IH]; intro b; [split; reflexivity|].
  assert (Hd : SOLM.debounce_ms cfg1 = SOLM.debounce_ms cfg2)
    by (destruct cfg1, cfg2; unfold SOLM_quoting_fields in H; simpl in H;
        inversion H; reflexivity).
  simpl. rewrite (solm_process_cycle_fields cfg1 cfg2 H).
  destruct (SOLM.is_running b); [|split; reflexivity].
  destruct (SOLM.process_cycle cfg2 idx b tk) as [[r b1] eff].
  destruct (IH b1) as [H1 H2]. rewrite H1, H2, Hd.
  destruct (SOLM.is_processing b); [split; reflexivity|].
  destruct (t_oracle tk); [rewrite (solm_should_update_fields cfg1 cfg2 H)|]; split; reflexivity.
Qed.

(** C9: two freshly constructed controllers whose configurations agree (on
    every field the quoting logic reads; in particular equal ones), replaying
    the same ticks (the same oracle samples, clock readings, order-book
    snapshots, account answers and submission results; for
    [simple-oracle-limit-maker] also the same oracle answer at
    construction), take the same accept/reject decisions and produce the
    same effects, hence the same submitted quotes (offsets and sizes), and
    end in the same state. *)
Theorem replay_deterministic :
  forall (cfg1 cfg2 : OLM.BotConfig) (scfg1 scfg2 : SOLM.BotConfig) idx ticks init_oracle,
    OLM_quoting_fields cfg1 = OLM_quoting_fields cfg2 ->
    SOLM_quoting_fields scfg1 = SOLM_quoting_fields scfg2 ->
    OLM.decisions cfg1 idx (OLM.set_running true OLM.state_default) ticks =
      OLM.decisions cfg2 idx (OLM.set_running true OLM.state_default) ticks /\
    OLM.start cfg1 idx OLM.state_default ticks = OLM.start cfg2 idx OLM.state_default ticks /\
    SOLM.decisions scfg1 idx (SOLM.set_running true (SOLM.new_bot init_oracle)) ticks =
      SOLM.decisions scfg2 idx (SOLM.set_running true (SOLM.new_bot init_oracle)) ticks /\
    SOLM.start scfg1 idx (SOLM.new_bot init_oracle) ticks =
      SOLM.start scfg2 idx (SOLM.new_bot init_oracle) ticks.
Proof.
  intros cfg1 cfg2 scfg1 scfg2 idx ticks init_oracle H1 H2.
  destruct (olm_replay_fields cfg1 cfg2 idx H1 ticks (OLM.set_running true OLM.state_default))
    as [A B].
  destruct (solm_replay_fields scfg1 scfg2 idx H2 ticks
              (SOLM.set_running true (SOLM.new_bot init_oracle))) as [C D].
  unfold OLM.start, SOLM.start. auto.
Qed.

Lemma replay_deterministic_witness :
  OLM.decisions OLM_main_config 0 (OLM.set_running true OLM.state_default)
    [tick_send_fails; tick_no_oracle] =
  OLM.decisions OLM_main_config 0 (OLM.set_running true OLM.state_default)
    [tick_send_fails; tick_no_oracle] /\
  OLM.start OLM_main_config 0 OLM.state_default [tick_send_fails; tick_no_oracle] =
  OLM.start OLM_main_config 0 OLM.state_default [tick_send_fails; tick_no_oracle] /\
  SOLM.decisions SOLM_main_config 0 (SOLM.set_running true (SOLM.new_bot (Some 100000000%Z)))
    [tick_send_fails; tick_no_oracle] =
  SOLM.decisions SOLM_main_config 0 (SOLM.set_running true (SOLM.new_bot (Some 100000000%Z)))
    [tick_send_fails; tick_no_oracle] /\
  SOLM.start SOLM_main_config 0 (SOLM.new_bot (Some 100000000%Z)) [tick_send_fails; tick_no_oracle] =
  SOLM.start SOLM_main_config 0 (SOLM.new_bot (Some 100000000%Z)) [tick_send_fails; tick_no_oracle].
Proof.
  apply (replay_deterministic OLM_main_config OLM_main_config SOLM_main_config SOLM_main_config
           0 [tick_send_fails; tick_no_oracle] (Some 100000000%Z)); reflexivity.
Defined.

(** ** Further properties of the two bots *)

Lemma count_submits_app (l1 l2 : list Effect) :
  count_submits (l1 ++ l2) = (count_submits l1 + count_submits l2)%nat.
Proof. unfold count_submits. rewrite filter_app, length_app. reflexivity. Qed.

Lemma count_sleeps_app (l1 l2 : list Effect) :
  count_sleeps (l1 ++ l2) = (count_sleeps l1 + count_sleeps l2)%nat.
Proof. unfold count_sleeps. rewrite filter_app, length_app. reflexivity. Qed.

Lemma olm_process_update_shape (cfg : OLM.BotConfig) (idx : Z) (st : OLM.State) (p : Z)
    (tk : Tick) (r : Result unit) (st' : OLM.State) (eff : list Effect) :
  OLM.process_update cfg idx st p tk = (r, st', eff) ->
  (eff = [] \/ exists q, eff = [Submit [CancelOrders idx; PlaceOrders (OLM.quote_orders idx q)]]) /\
  OLM.is_running st' = OLM.is_running st.
Proof.
  unfold OLM.process_update.
  destruct (OLM.best_bid _); [|intro H; inversion H; subst; auto].
  destruct (OLM.best_ask _); [|intro H; inversion H; subst; auto].
  destruct (OLM.get_current_position _ _); [|intro H; inversion H; subst; auto].
  destruct (t_init_tx tk); [|intro H; inversion H; subst; auto].
  destruct (t_send tk); intro H; inversion H; subst; split; try reflexivity;
    right; eexists; reflexivity.
Qed.

Lemma olm_loop_body_shape (cfg : OLM.BotConfig) (idx : Z) (st : OLM.State) (tk : Tick)
    (st' : OLM.State) (eff : list Effect) :
  OLM.loop_body cfg idx st tk = Some (st', eff) ->
  OLM.is_running st' = OLM.is_running st /\
  (count_submits eff <= 1)%nat /\ count_sleeps eff = 1%nat.
Proof.
  unfold OLM.loop_body.
  destruct (t_oracle tk) as [p|]; [|discriminate].
  destruct (OLM.should_update cfg st (t_now_gate tk) p).
  - destruct (OLM.process_update cfg idx st p tk) as [[r s] ef] eqn:Hp.
    apply olm_process_update_shape in Hp. destruct Hp as [Hef Hs].
    destruct r; intro H; inversion H; subst;
      rewrite ?count_submits_app, ?count_sleeps_app;
      (split; [exact Hs|]);
      destruct Hef as [->|[q ->]]; unfold count_submits, count_sleeps; simpl; lia.
  - intro H; inversion H; subst. simpl. auto.
Qed.

Lemma olm_loop_run_running (cfg : OLM.BotConfig) (idx : Z) (ticks : list Tick) :
  forall st, OLM.is_running st = true ->
    (fst (fst (OLM.trading_loop_run cfg idx st ticks)) = Interrupted <->
     Forall (fun tk => t_oracle tk <> None) ticks) /\
    (fst (fst (OLM.trading_loop_run cfg idx st ticks)) = Interrupted \/
     fst (fst (OLM.trading_loop_run cfg idx st ticks)) = Exited (Err "Failed to get oracle price"%string)) /\
    OLM.is_running (snd (fst (OLM.trading_loop_run cfg idx st ticks))) = true /\
    (count_submits (snd (OLM.trading_loop_run cfg idx st ticks)) <= length ticks)%nat /\
    (fst (fst (OLM.trading_loop_run cfg idx st ticks)) = Interrupted ->
     count_sleeps (snd (OLM.trading_loop_run cfg idx st ticks)) = length ticks).
Proof.
  induction ticks as [|tk rest IH]; intros st Hr.
  - simpl. repeat split; auto.
  - simpl. rewrite Hr.
    destruct (OLM.loop_body cfg idx st tk) as [[st1 eff]|] eqn:Hb.
    + destruct (olm_loop_body_shape _ _ _ _ _ _ Hb) as [Hs [Hc Hz]].
      assert (Ho : t_oracle tk <> None)
        by (unfold OLM.loop_body in Hb; destruct (t_oracle tk); congruence).
      rewrite Hr in Hs.
      destruct (IH st1 Hs) as [I1 [I2 [I3 [I4 I5]]]].
      destruct (OLM.trading_loop_run cfg idx st1 rest) as [[e st2] eff2]. simpl in *.
      rewrite count_submits_app, count_sleeps_app.
      split; [|split; [exact I2|split; [exact I3|split; [lia|]]]].
      * rewrite I1. split; [intro H; constructor; auto|intro H; inversion H; auto].
      * intro He. rewrite (I5 He). lia.
    + simpl.
      assert (Ho : t_oracle tk = None)
        by (unfold OLM.loop_body in Hb; destruct (t_oracle tk); [|reflexivity];
            destruct (OLM.should_update _ _ _ _);
            [destruct (OLM.process_update _ _ _ _ _) as [[[] ?] ?]|]; discriminate).
      split; [|split; [right; reflexivity|split; [exact Hr|split; [unfold count_submits; simpl; lia|discriminate]]]].
      split; [discriminate|intro H; inversion H; congruence].
Qed.

(** C4 (amended): in [oracle-limit-maker] an empty bid or ask side makes
    [process_update] fail with "No bids in orderbook" (or "No asks in
    orderbook") before any effect and without changing the state; when the
    gate has accepted, the loop logs "Update failed: " with that error,
    then sleeps its regular 100 ms and goes on to the next tick from the
    same state, with no separate cooldown.  A missing oracle price makes
    [trading_loop] return the error "Failed to get oracle price" with the
    state unchanged, and [main] logs it as a fatal error and exits with
    code 1.  In [simple-oracle-limit-maker] a failed oracle read aborts the
    cycle with the bot unchanged, and [start] logs it, sleeps 5 s and runs
    the next cycle. *)
Theorem missing_data_handling :
  (forall cfg idx st p tk,
     bids (t_l2 tk) = [] \/ asks (t_l2 tk) = [] ->
     OLM.process_update cfg idx st p tk =
       (Err match bids (t_l2 tk) with
            | [] => "No bids in orderbook"%string
            | _ => "No asks in orderbook"%string
            end, st, [])) /\
  (forall cfg idx st tk p rest,
     OLM.is_running st = true -> t_oracle tk = Some p ->
     bids (t_l2 tk) = [] \/ asks (t_l2 tk) = [] ->
     OLM.trading_loop_run cfg idx st (tk :: rest) =
       (fst (fst (OLM.trading_loop_run cfg idx st rest)),
        snd (fst (OLM.trading_loop_run cfg idx st rest)),
        (if OLM.should_update cfg st (t_now_gate tk) p
         then [LogError ("Update failed: " ++
                         match bids (t_l2 tk) with
                         | [] => "No bids in orderbook"
                         | _ => "No asks in orderbook"
                         end)]
         else []) ++ [Sleep 100] ++ snd (OLM.trading_loop_run cfg idx st rest))) /\
  (forall cfg idx st tk rest,
     OLM.is_running st = true -> t_oracle tk = None ->
     OLM.trading_loop_run cfg idx st (tk :: rest) =
       (Exited (Err "Failed to get oracle price"%string), st, [])) /\
  (forall idx ticks env,
     (exists tk, In tk ticks /\ t_oracle tk = None) ->
     exists eff,
       olm_main (NewOk idx) ticks env =
       (1%Z, eff ++ [LogError ("Bot encountered fatal error: " ++ "Failed to get oracle price")])) /\
  (forall cfg idx b tk rest,
     SOLM.is_running b = true -> SOLM.is_processing b = false -> t_oracle tk = None ->
     SOLM.process_cycle cfg idx b tk = (Err "oracle price unavailable"%string, b, []) /\
     SOLM.run cfg idx b (tk :: rest) =
       (fst (fst (SOLM.run cfg idx b rest)), snd (fst (SOLM.run cfg idx b rest)),
        [LogError ("Trading cycle failed: " ++ "oracle price unavailable");
         Sleep 5000] ++ snd (SOLM.run cfg idx b rest))).
Proof.
  assert (Hempty : forall cfg idx st p tk,
     bids (t_l2 tk) = [] \/ asks (t_l2 tk) = [] ->
     OLM.process_update cfg idx st p tk =
       (Err match bids (t_l2 tk) with
            | [] => "No bids in orderbook"%string
            | _ => "No asks in orderbook"%string
            end, st, [])).
  { intros cfg idx st p tk H; unfold OLM.process_update, OLM.best_bid, OLM.best_ask,
      btree_last, btree_first.
    destruct (bids (t_l2 tk)) as [|x l] eqn:Hb.
    - reflexivity.
    - destruct H as [H|H]; [discriminate|].
      destruct (rev (x :: l)) as [|[q w] r] eqn:Hr.
      + exfalso. apply (f_equal (@length _)) in Hr. rewrite length_rev in Hr.
        discriminate.
      + rewrite H. reflexivity. }
  split; [exact Hempty|]. split; [|split; [|split]].
  - intros cfg idx st tk p rest Hr Ho Hl.
    simpl. rewrite Hr. unfold OLM.loop_body. rewrite Ho.
    destruct (OLM.should_update cfg st (t_now_gate tk) p).
    + rewrite (Hempty cfg idx st p tk Hl).
      destruct (OLM.trading_loop_run cfg idx st rest) as [[x y] z]. reflexivity.
    + destruct (OLM.trading_loop_run cfg idx st rest) as [[x y] z]. reflexivity.
  - intros cfg idx st tk rest Hr Ho. simpl. rewrite Hr. unfold OLM.loop_body. rewrite Ho.
    reflexivity.
  - intros idx ticks env [tk [Hin Ho]].
    destruct (olm_loop_run_running OLM_main_config idx ticks
                (OLM.set_running true OLM.state_default) eq_refl) as [H1 [H2 _]].
    unfold olm_main, OLM.start.
    destruct (OLM.trading_loop_run _ _ _ _) as [[e st] eff]. simpl in *.
    destruct H2 as [He|He].
    + exfalso. apply H1 in He. rewrite Forall_forall in He. exact (He tk Hin Ho).
    + subst e. exists eff. reflexivity.
  - intros cfg idx b tk rest Hr Hp Ho.
    assert (Hc : SOLM.process_cycle cfg idx b tk = (Err "oracle price unavailable"%string, b, []))
      by (unfold SOLM.process_cycle; rewrite Hp, Ho; reflexivity).
    split; [exact Hc|].
    simpl. rewrite Hr, Hc.
    destruct (SOLM.run cfg idx b rest) as [[x y] z]. reflexivity.
Qed.

Lemma olm_best_bid_ok (l2 : L2Snapshot) : (exists b, OLM.best_bid l2 = Ok b) <-> bids l2 <> [].
Proof.
  unfold OLM.best_bid, btree_last.
  destruct (rev (bids l2)) as [|[p s] r] eqn:E.
  - split; [intros [b H]; discriminate|]. intro H. exfalso. apply H.
    rewrite <- (rev_involutive (bids l2)), E. reflexivity.
  - split; [|eexists; reflexivity]. intros _ H. rewrite H in E. discriminate.
Qed.

Lemma olm_best_ask_ok (l2 : L2Snapshot) : (exists a, OLM.best_ask l2 = Ok a) <-> asks l2 <> [].
Proof.
  unfold OLM.best_ask, btree_first.
  destruct (asks l2) as [|[p s] r].
  - split; [intros [a H]; discriminate|]. intro H. exfalso. apply H. reflexivity.
  - split; [|eexists; reflexivity]. intros _ H. discriminate.
Qed.

(** X1: [process_update] of [oracle-limit-maker] succeeds exactly when both
    sides of the book are non-empty and the account fetch, [init_tx] and
    [sign_and_send] all succeed; on success it records the quoted oracle
    price and the clock read after submission, keeps [is_running], and its
    only effect is one transaction: cancel the market's orders, then place
    the bid and ask computed from the best prices and the position found for
    the market (0 when there is none). *)
Theorem olm_process_update_success :
  forall cfg idx st p tk,
    (fst (fst (OLM.process_update cfg idx st p tk)) = Ok tt <->
     bids (t_l2 tk) <> [] /\ asks (t_l2 tk) <> [] /\
     (exists ps, t_user_account tk = Ok ps) /\ t_init_tx tk = Ok tt /\
     (exists sig, t_send tk = Ok sig)) /\
    (forall st' eff, OLM.process_update cfg idx st p tk = (Ok tt, st', eff) ->
       st' = {| OLM.prev_oracle_price := p; OLM.last_update_time := t_now_update tk;
                OLM.is_running := OLM.is_running st |} /\
       exists b a ps, OLM.best_bid (t_l2 tk) = Ok b /\ OLM.best_ask (t_l2 tk) = Ok a /\
         t_user_account tk = Ok ps /\
         eff = [Submit [CancelOrders idx;
                        PlaceOrders (OLM.quote_orders idx
                          (OLM.compute_quote cfg p b a
                             match find_position idx ps with
                             | Some pos => pos_base_asset_amount pos
                             | None => 0%Z
                             end))]]).
Proof.
  intros cfg idx st p tk.
  pose proof (olm_best_bid_ok (t_l2 tk)) as Hb.
  pose proof (olm_best_ask_ok (t_l2 tk)) as Ha.
  unfold OLM.process_update.
  destruct (OLM.best_bid (t_l2 tk)) as [b|eb];
    [|split; [split; [discriminate|intros [H _]; apply Hb in H; destruct H; discriminate]
             |intros st' eff H; discriminate]].
  destruct (OLM.best_ask (t_l2 tk)) as [a|ea];
    [|split; [split; [discriminate|intros [_ [H _]]; apply Ha in H; destruct H; discriminate]
             |intros st' eff H; discriminate]].
  assert (Hb' : bids (t_l2 tk) <> []) by (apply Hb; eexists; reflexivity).
  assert (Ha' : asks (t_l2 tk) <> []) by (apply Ha; eexists; reflexivity).
  unfold OLM.get_current_position.
  destruct (t_user_account tk) as [ps|eu];
    [|split; [split; [discriminate|intros [_ [_ [[ps H] _]]]; discriminate]
             |intros st' eff H; discriminate]].
  destruct (t_init_tx tk) as [[]|ei];
    [|split; [split; [discriminate|intros [_ [_ [_ [H _]]]]; discriminate]
             |intros st' eff H; discriminate]].
  destruct (t_send tk) as [sig|es].
  - split.
    + split; [intros _; repeat split; eauto|reflexivity].
    + intros st' eff H. inversion H; subst. split; [reflexivity|].
      exists b, a, ps. repeat split.
      destruct (find_position idx ps); reflexivity.
  - split; [split; [discriminate|intros [_ [_ [_ [_ [s H]]]]]; discriminate]
           |intros st' eff H; discriminate].
Qed.


(** X2: nothing in [trading_loop] clears [is_running], so [start] of
    [oracle-limit-maker] never returns [Ok]: it runs until interrupted when
    every tick has an oracle price, and otherwise returns the error
    "Failed to get oracle price"; the state stays running. *)
Theorem olm_loop_ends_only_on_missing_oracle :
  forall cfg idx st ticks,
    (fst (fst (OLM.start cfg idx st ticks)) = Interrupted <->
     Forall (fun tk => t_oracle tk <> None) ticks) /\
    fst (fst (OLM.start cfg idx st ticks)) <> Exited (Ok tt) /\
    (fst (fst (OLM.start cfg idx st ticks)) = Interrupted \/
     fst (fst (OLM.start cfg idx st ticks)) = Exited (Err "Failed to get oracle price"%string)) /\
    OLM.is_running (snd (fst (OLM.start cfg idx st ticks))) = true.
Proof.
  intros cfg idx st ticks. unfold OLM.start.
  destruct (olm_loop_run_running cfg idx ticks (OLM.set_running true st) eq_refl)
    as [H1 [H2 [H3 _]]].
  split; [exact H1|]. split; [|split; [exact H2|exact H3]].
  destruct H2 as [-> | ->]; discriminate.
Qed.

Lemma olm_loop_body_block (cfg : OLM.BotConfig) (idx : Z) (st : OLM.State) (tk : Tick)
    (st' : OLM.State) (eff : list Effect) :
  OLM.loop_body cfg idx st tk = Some (st', eff) ->
  exists pre, eff = pre ++ [Sleep 100] /\
              (count_submits pre <= 1)%nat /\ count_sleeps pre = 0%nat.
Proof.
  unfold OLM.loop_body.
  destruct (t_oracle tk) as [p|]; [|discriminate].
  destruct (OLM.should_update cfg st (t_now_gate tk) p).
  - destruct (OLM.process_update cfg idx st p tk) as [[r s] ef] eqn:Hp.
    apply olm_process_update_shape in Hp. destruct Hp as [Hef _].
    destruct r; intro H; inversion H; subst; eexists; (split; [reflexivity|]);
      rewrite ?count_submits_app, ?count_sleeps_app;
      destruct Hef as [->|[q ->]]; unfold count_submits, count_sleeps; simpl; lia.
  - intro H; inversion H; subst. exists []. unfold count_submits, count_sleeps.
    simpl. auto.
Qed.

Lemma olm_loop_run_blocks (cfg : OLM.BotConfig) (idx : Z) (ticks : list Tick) :
  forall st, OLM.is_running st = true ->
  exists blocks,
    snd (OLM.trading_loop_run cfg idx st ticks) = concat blocks /\
    Forall (fun blk => exists pre, blk = pre ++ [Sleep 100] /\
                         (count_submits pre <= 1)%nat /\ count_sleeps pre = 0%nat) blocks /\
    (fst (fst (OLM.trading_loop_run cfg idx st ticks)) = Interrupted ->
     length blocks = length ticks) /\
    (fst (fst (OLM.trading_loop_run cfg idx st ticks)) <> Interrupted ->
     exists pre tk post, ticks = pre ++ tk :: post /\ t_oracle tk = None /\
       Forall (fun tk => t_oracle tk <> None) pre /\ length blocks = length pre).
Proof.
  induction ticks as [|tk rest IH]; intros st Hr.
  - exists []. simpl. repeat split; auto. intro H. exfalso. apply H. reflexivity.
  - simpl. rewrite Hr.
    destruct (OLM.loop_body cfg idx st tk) as [[st1 eff]|] eqn:Hb.
    + destruct (olm_loop_body_shape _ _ _ _ _ _ Hb) as [Hs _].
      destruct (olm_loop_body_block _ _ _ _ _ _ Hb) as [pre0 Hpre].
      assert (Ho : t_oracle tk <> None)
        by (unfold OLM.loop_body in Hb; destruct (t_oracle tk); congruence).
      rewrite Hr in Hs.
      destruct (IH st1 Hs) as [blocks [B1 [B2 [B3 B4]]]].
      destruct (OLM.trading_loop_run cfg idx st1 rest) as [[e st2] eff2]. simpl in *.
      exists (eff :: blocks). split; [rewrite B1; reflexivity|].
      split; [constructor; [exists pre0; exact Hpre|exact B2]|].
      split; [intro He; simpl; rewrite (B3 He); reflexivity|].
      intro He. destruct (B4 He) as [pre [tk' [post [E1 [E2 [E3 E4]]]]]].
      exists (tk :: pre), tk', post. subst rest. simpl.
      split; [reflexivity|]. split; [exact E2|]. split; [constructor; assumption|].
      rewrite E4. reflexivity.
    + assert (Ho : t_oracle tk = None)
        by (unfold OLM.loop_body in Hb; destruct (t_oracle tk); [|reflexivity];
            destruct (OLM.should_update _ _ _ _);
            [destruct (OLM.process_update _ _ _ _ _) as [[[] ?] ?]|]; discriminate).
      exists []. simpl. split; [reflexivity|]. split; [constructor|].
      split; [discriminate|].
      intros _. exists [], tk, rest. simpl. repeat split; auto.
Qed.

(** X3: the loop of [oracle-limit-maker] does one block of effects per
    tick it runs: at most one transaction, then exactly one sleep, of
    100 ms.  When it runs until the interruption there is one block per
    tick; when it ends on a missing oracle price there is one block per
    tick before that one. *)
Theorem olm_loop_one_submit_per_tick :
  forall cfg idx st ticks,
  exists blocks,
    snd (OLM.start cfg idx st ticks) = concat blocks /\
    Forall (fun blk => exists pre, blk = pre ++ [Sleep 100] /\
                         (count_submits pre <= 1)%nat /\ count_sleeps pre = 0%nat) blocks /\
    (fst (fst (OLM.start cfg idx st ticks)) = Interrupted -> length blocks = length ticks) /\
    (fst (fst (OLM.start cfg idx st ticks)) <> Interrupted ->
     exists pre tk post, ticks = pre ++ tk :: post /\ t_oracle tk = None /\
       Forall (fun tk => t_oracle tk <> None) pre /\ length blocks = length pre).
Proof.
  intros cfg idx st ticks. unfold OLM.start.
  apply olm_loop_run_blocks. reflexivity.
Qed.


Lemma close_order_flattens (idx base : Z) :
  base <> 0%Z ->
  (base + signed_amount
     {| order_type := Market; direction := if Z.ltb 0 base then Short else Long;
        base_asset_amount := Z.abs base; market_index := idx; price := 0;
        oracle_price_offset := None; post_only := false; reduce_only := true |} = 0)%Z.
Proof.
  intro H. unfold signed_amount. simpl.
  destruct (Z.ltb_spec 0 base); simpl; lia.
Qed.

(** X5: when [init_tx] succeeds, [stop] of [oracle-limit-maker] returns [Ok]
    with [is_running] cleared; it submits exactly one transaction, first,
    made of a cancel-all followed, exactly when the account could be read
    and shows a non-zero position on the market, by one reduce-only market
    order on that market whose signed size is the opposite of the position;
    then only send-error logs and the two unsubscribes follow. *)
Theorem olm_stop_success :
  forall cfg idx st env,
    OLM.s_init_tx env = Ok tt ->
    fst (fst (OLM.stop cfg idx st env)) = Ok tt /\
    snd (fst (OLM.stop cfg idx st env)) = OLM.set_running false st /\
    exists tx log,
      snd (OLM.stop cfg idx st env) = Submit tx :: log ++ OLM.unsubscribe_step env /\
      (forall x, In x log -> exists m, x = LogError m) /\
      (tx = [CancelAllOrders] \/
       exists o, tx = [CancelAllOrders; PlaceOrders [o]] /\
         order_type o = Market /\ reduce_only o = true /\ market_index o = idx /\
         exists ps pos, OLM.s_user_account env = Ok ps /\ find_position idx ps = Some pos /\
           pos_base_asset_amount pos <> 0%Z /\
           (pos_base_asset_amount pos + signed_amount o = 0)%Z) /\
      (forall ps pos, OLM.s_user_account env = Ok ps -> find_position idx ps = Some pos ->
         pos_base_asset_amount pos <> 0%Z -> tx <> [CancelAllOrders]).
Proof.
  intros cfg idx st env Hi.
  unfold OLM.stop, OLM.get_current_position. rewrite Hi.
  destruct (OLM.s_user_account env) as [ps|eu] eqn:Ha.
  - destruct (find_position idx ps) as [pos|] eqn:Hf.
    + destruct (Z.eqb_spec (pos_base_asset_amount pos) 0) as [Hz|Hz].
      * simpl. split; [reflexivity|]. split; [reflexivity|].
        eexists _, _. split; [reflexivity|]. split.
        { destruct (OLM.s_send env); intros x [Hx|[]]||intros x []; eauto. }
        split; [left; reflexivity|].
        intros ps' pos' Hps Hpos Hne. inversion Hps; subst. congruence.
      * simpl. split; [reflexivity|]. split; [reflexivity|].
        eexists _, _. split; [reflexivity|]. split.
        { destruct (OLM.s_send env); intros x [Hx|[]]||intros x []; eauto. }
        split; [|intros; discriminate].
        right. eexists. split; [reflexivity|]. split; [reflexivity|]. split; [reflexivity|].
        split; [reflexivity|]. exists ps, pos. split; [reflexivity|]. split; [exact Hf|].
        split; [exact Hz|]. apply close_order_flattens. exact Hz.
    + simpl. split; [reflexivity|]. split; [reflexivity|].
      eexists _, _. split; [reflexivity|]. split.
      { destruct (OLM.s_send env); intros x [Hx|[]]||intros x []; eauto. }
      split; [left; reflexivity|].
      intros ps' pos' Hps Hpos Hne. inversion Hps; subst. congruence.
  - simpl. split; [reflexivity|]. split; [reflexivity|].
    eexists _, _. split; [reflexivity|]. split.
    { destruct (OLM.s_send env); intros x [Hx|[]]||intros x []; eauto. }
    split; [left; reflexivity|].
    intros ps' pos' Hps. discriminate.
Qed.

Lemma olm_stop_success_witness :
  OLM.s_init_tx {| OLM.s_user_account := Ok [ {| pos_market_index := 0; pos_base_asset_amount := 10000000 |} ];
                   OLM.s_init_tx := Ok tt; OLM.s_send := Ok "sig"%string; OLM.s_unsubscribe := Ok tt |}
    = Ok tt /\
  fst (fst (OLM.stop OLM_main_config 0 OLM.state_default
     {| OLM.s_user_account := Ok [ {| pos_market_index := 0; pos_base_asset_amount := 10000000 |} ];
        OLM.s_init_tx := Ok tt; OLM.s_send := Ok "sig"%string; OLM.s_unsubscribe := Ok tt |})) = Ok tt.
Proof.
  split; [reflexivity|].
  apply (olm_stop_success OLM_main_config 0 OLM.state_default
     {| OLM.s_user_account := Ok [ {| pos_market_index := 0; pos_base_asset_amount := 10000000 |} ];
        OLM.s_init_tx := Ok tt; OLM.s_send := Ok "sig"%string; OLM.s_unsubscribe := Ok tt |}).
  reflexivity.
Defined.

(** X6: [stop] of [simple-oracle-limit-maker] always clears [is_running] and
    ends with its one [unsubscribe] call (and its log); it submits at most
    two transactions: a cancel-all exactly when [has_active_orders] is set
    and its [init_tx] succeeds, and a reduce-only market order on the market
    that exactly offsets the non-zero position it read, which is submitted
    whenever the account read succeeds, the position is non-zero and the
    second [init_tx] succeeds.  A failure of either step never prevents the
    later ones. *)
Theorem solm_stop_effects :
  forall idx b env,
    fst (SOLM.stop idx b env) = SOLM.set_running false b /\
    (exists pre,
       snd (SOLM.stop idx b env) =
       pre ++ Unsubscribe ::
         match SOLM.s_unsubscribe env with
         | Err e => [LogError ("Failed to unsubscribe: " ++ e)]
         | Ok _ => []
         end /\ ~ In Unsubscribe pre) /\
    (count_submits (snd (SOLM.stop idx b env)) <= 2)%nat /\
    (In (Submit [CancelAllOrders]) (snd (SOLM.stop idx b env)) <->
     SOLM.has_active_orders b = true /\ SOLM.s_cancel_init_tx env = Ok tt) /\
    (forall tx, In (Submit tx) (snd (SOLM.stop idx b env)) ->
       tx = [CancelAllOrders] \/
       exists o, tx = [PlaceOrders [o]] /\
         order_type o = Market /\ reduce_only o = true /\ market_index o = idx /\
         exists ps pos, SOLM.s_user_account env = Ok ps /\ find_position idx ps = Some pos /\
           pos_base_asset_amount pos <> 0%Z /\
           (pos_base_asset_amount pos + signed_amount o = 0)%Z) /\
    (forall ps pos, SOLM.s_user_account env = Ok ps -> find_position idx ps = Some pos ->
       pos_base_asset_amount pos <> 0%Z -> SOLM.s_close_init_tx env = Ok tt ->
       exists o, In (Submit [PlaceOrders [o]]) (snd (SOLM.stop idx b env))).
Proof.
  intros idx b env.
  unfold SOLM.stop. simpl.
  match goal with |- context [?c ++ ?cl ++ Unsubscribe :: _] =>
    set (cancel := c); set (close := cl) end.
  (* shape of the cancel part *)
  assert (Hc : (cancel = [] \/ exists l, cancel = Submit [CancelAllOrders] :: l /\
                                    forall x, In x l -> exists m, x = LogError m) /\
               (In (Submit [CancelAllOrders]) cancel <->
                SOLM.has_active_orders b = true /\ SOLM.s_cancel_init_tx env = Ok tt)).
  { unfold cancel. destruct (SOLM.has_active_orders b);
      [|split; [left; reflexivity|split; [intros []|intros [H _]; discriminate]]].
    destruct (SOLM.s_cancel_init_tx env) as [[]|ec].
    - split.
      + right. eexists. split; [reflexivity|].
        destruct (SOLM.s_cancel_send env); intros x Hx; simpl in Hx;
          [destruct Hx|destruct Hx as [Hx|[]]; eauto].
      + split; [auto|intros _; left; reflexivity].
    - split; [left; reflexivity|split; [intros []|intros [_ H]; discriminate]]. }
  assert (Hl : (close = [] \/
                exists o l, close = Submit [PlaceOrders [o]] :: l /\
                  (forall x, In x l -> exists m, x = LogError m) /\
                  order_type o = Market /\ reduce_only o = true /\ market_index o = idx /\
                  exists ps pos, SOLM.s_user_account env = Ok ps /\ find_position idx ps = Some pos /\
                    pos_base_asset_amount pos <> 0%Z /\
                    (pos_base_asset_amount pos + signed_amount o = 0)%Z) /\
               (forall ps pos, SOLM.s_user_account env = Ok ps -> find_position idx ps = Some pos ->
                  pos_base_asset_amount pos <> 0%Z -> SOLM.s_close_init_tx env = Ok tt ->
                  exists o, In (Submit [PlaceOrders [o]]) close)).
  { unfold close, OLM.get_current_position.
    destruct (SOLM.s_user_account env) as [ps|eu];
      [|split; [left; reflexivity|intros ps pos H; discriminate]].
    destruct (find_position idx ps) as [pos|] eqn:Hf;
      [|split; [left; reflexivity|intros ps' pos' H Hf'; inversion H; subst; congruence]].
    destruct (Z.eqb_spec (pos_base_asset_amount pos) 0) as [Hz|Hz].
    - split; [left; reflexivity|]. intros ps' pos' H Hf'. inversion H; subst. congruence.
    - destruct (SOLM.s_close_init_tx env) as [[]|ec].
      + split.
        * right. eexists _, _. split; [reflexivity|]. split.
          { destruct (SOLM.s_close_send env); intros x Hx; simpl in Hx;
              [destruct Hx|destruct Hx as [Hx|[]]; eauto]. }
          split; [reflexivity|]. split; [reflexivity|]. split; [reflexivity|].
          exists ps, pos. split; [reflexivity|]. split; [exact Hf|]. split; [exact Hz|].
          apply close_order_flattens. exact Hz.
        * intros. eexists. left. reflexivity.
      + split; [left; reflexivity|]. intros ps' pos' H Hf' Hz' Hi. discriminate. }
  clearbody cancel close.
  destruct Hc as [Hc1 Hc2]. destruct Hl as [Hl1 Hl2].
  split; [reflexivity|]. split; [|split; [|split; [|split]]].
  - exists (cancel ++ close). rewrite <- app_assoc. split; [reflexivity|].
    intro H. apply in_app_or in H.
    destruct H as [H|H];
      [destruct Hc1 as [->|[l [-> Hl]]]|destruct Hl1 as [->|[o [l [-> [Hl _]]]]]];
      try (destruct H as [H|H]; [discriminate|destruct (Hl _ H); discriminate]); destruct H.
  - rewrite !count_submits_app.
    replace (count_submits (Unsubscribe :: _)) with 0%nat
      by (destruct (SOLM.s_unsubscribe env); reflexivity).
    assert (Hlog : forall l, (forall x, In x l -> exists m, x = LogError m) -> count_submits l = 0%nat).
    { induction l as [|x l IH]; intro H; [reflexivity|].
      destruct (H x (or_introl eq_refl)) as [m ->].
      unfold count_submits in *. simpl. apply IH. intros y Hy. apply H. right. exact Hy. }
    destruct Hc1 as [->|[l [-> Hl]]]; destruct Hl1 as [->|[o [l' [-> [Hl' _]]]]];
      unfold count_submits in *; simpl;
      rewrite ?Hlog by assumption; lia.
  - rewrite <- Hc2. split; [|intro H; apply in_or_app; left; exact H].
    intro H. apply in_app_or in H. destruct H as [H|H]; [exact H|].
    apply in_app_or in H. destruct H as [H|H].
    + exfalso. destruct Hl1 as [->|[o [l [-> [Hl _]]]]]; [destruct H|].
      destruct H as [H|H]; [inversion H|destruct (Hl _ H); discriminate].
    + exfalso. destruct H as [H|H]; [discriminate|].
      destruct (SOLM.s_unsubscribe env); [destruct H|destruct H as [H|[]]; discriminate].
  - intros tx H. apply in_app_or in H. destruct H as [H|H].
    + left. destruct Hc1 as [->|[l [-> Hl]]]; [destruct H|].
      destruct H as [H|H]; [inversion H; reflexivity|destruct (Hl _ H); discriminate].
    + apply in_app_or in H. destruct H as [H|H].
      * right. destruct Hl1 as [->|[o [l [-> [Hl Ho]]]]]; [destruct H|].
        destruct H as [H|H]; [inversion H; subst; exists o; split; [reflexivity|exact Ho]|].
        destruct (Hl _ H); discriminate.
      * exfalso. destruct H as [H|H]; [discriminate|].
        destruct (SOLM.s_unsubscribe env); [destruct H|destruct H as [H|[]]; discriminate].
  - intros ps pos Ha Hf Hz Hi. destruct (Hl2 ps pos Ha Hf Hz Hi) as [o Ho].
    exists o. apply in_or_app. right. apply in_or_app. left. exact Ho.
Qed.

(** X7: [handle_oracle_update] of [simple-oracle-limit-maker] does nothing when
    [is_processing] is set; otherwise it succeeds exactly when the account
    fetch, [init_tx] and [sign_and_send] succeed, and then leaves the new
    price as [oracle_price], the previous [oracle_price] as
    [prev_oracle_price], the clock read as [last_oracle_update],
    [has_active_orders] set and the guard cleared, after submitting one
    transaction that cancels the market's orders and places the two quotes
    priced off the new oracle price. *)
Theorem solm_handle_oracle_update_success :
  forall cfg idx b p tk,
    (SOLM.is_processing b = true -> SOLM.handle_oracle_update cfg idx b p tk = (Ok tt, b, [])) /\
    (SOLM.is_processing b = false ->
     (fst (fst (SOLM.handle_oracle_update cfg idx b p tk)) = Ok tt <->
      (exists ps, t_user_account tk = Ok ps) /\ t_init_tx tk = Ok tt /\
      (exists sig, t_send tk = Ok sig)) /\
     (forall b' eff, SOLM.handle_oracle_update cfg idx b p tk = (Ok tt, b', eff) ->
        b' = {| SOLM.oracle_price := p; SOLM.prev_oracle_price := SOLM.oracle_price b;
                SOLM.last_oracle_update := t_now_update tk; SOLM.has_active_orders := true;
                SOLM.is_running := SOLM.is_running b; SOLM.is_processing := false |} /\
        exists ps, t_user_account tk = Ok ps /\
          eff = [Submit [CancelOrders idx;
                         PlaceOrders (SOLM.quote_orders idx p
                           (SOLM.calculate_quotes cfg
                              (IZR match find_position idx ps with
                                   | Some pos => pos_base_asset_amount pos
                                   | None => 0%Z
                                   end / SOLM.BASE_PRECISION)))]])).
Proof.
  intros cfg idx b p tk.
  split; [intro H; unfold SOLM.handle_oracle_update; rewrite H; reflexivity|].
  intro H. unfold SOLM.handle_oracle_update. rewrite H.
  unfold OLM.get_current_position.
  destruct (t_user_account tk) as [ps|eu];
    [|split; [split; [discriminate|intros [[ps' H'] _]; discriminate]
             |intros b' eff H'; discriminate]].
  unfold SOLM.update_orders. simpl.
  destruct (t_init_tx tk) as [[]|ei];
    [|split; [split; [discriminate|intros [_ [H' _]]; discriminate]
             |intros b' eff H'; discriminate]].
  destruct (t_send tk) as [sig|es].
  - split; [split; [intros _; repeat split; eauto|reflexivity]|].
    intros b' eff H'. inversion H'; subst. split; [reflexivity|].
    exists ps. split; [reflexivity|]. reflexivity.
  - split; [split; [discriminate|intros [_ [_ [s H']]]; discriminate]
           |intros b' eff H'; discriminate].
Qed.

Lemma solm_process_cycle_shape (cfg : SOLM.BotConfig) (idx : Z) (b : SOLM.Bot) (tk : Tick)
    (r : Result unit) (b' : SOLM.Bot) (eff : list Effect) :
  SOLM.process_cycle cfg idx b tk = (r, b', eff) ->
  SOLM.is_running b' = SOLM.is_running b /\
  (eff = [] \/ exists o q, eff = [Submit [CancelOrders idx; PlaceOrders (SOLM.quote_orders idx o q)]]).
Proof.
  unfold SOLM.process_cycle.
  destruct (SOLM.is_processing b) eqn:Hp; [intro H; inversion H; subst; auto|].
  destruct (t_oracle tk) as [p|]; [|intro H; inversion H; subst; auto].
  destruct (SOLM.should_update_quotes _ _ _ _); [|intro H; inversion H; subst; auto].
  unfold SOLM.handle_oracle_update. rewrite Hp.
  destruct (OLM.get_current_position _ _); [|intro H; inversion H; subst; auto].
  unfold SOLM.update_orders.
  destruct (t_init_tx tk); [|intro H; inversion H; subst; auto].
  destruct (t_send tk); intro H; inversion H; subst; simpl;
    (split; [reflexivity|right; eexists _, _; reflexivity]).
Qed.

Lemma solm_run_running (cfg : SOLM.BotConfig) (idx : Z) (ticks : list Tick) :
  forall b, SOLM.is_running b = true ->
    fst (fst (SOLM.run cfg idx b ticks)) = Interrupted /\
    SOLM.is_running (snd (fst (SOLM.run cfg idx b ticks))) = true /\
    count_sleeps (snd (SOLM.run cfg idx b ticks)) = length ticks /\
    (count_submits (snd (SOLM.run cfg idx b ticks)) <= length ticks)%nat /\
    (forall ms, In (Sleep ms) (snd (SOLM.run cfg idx b ticks)) ->
       ms = 5000%Z \/ ms = SOLM.debounce_ms cfg).
Proof.
  induction ticks as [|tk rest IH]; intros b Hr.
  - simpl. repeat split; auto. intros ms [].
  - simpl. rewrite Hr.
    destruct (SOLM.process_cycle cfg idx b tk) as [[r b1] eff] eqn:Hc.
    apply solm_process_cycle_shape in Hc. destruct Hc as [Hs Hef].
    rewrite Hr in Hs.
    destruct (IH b1 Hs) as [I1 [I2 [I3 [I4 I5]]]].
    destruct (SOLM.run cfg idx b1 rest) as [[e b2] eff2]. simpl in *.
    split; [exact I1|]. split; [exact I2|].
    rewrite count_sleeps_app, count_submits_app, I3.
    destruct Hef as [->|[o [q ->]]]; destruct r;
      unfold count_sleeps, count_submits in *; simpl;
      (split; [lia|split; [lia|]]);
      intros ms Hin; simpl in Hin; rewrite ?in_app_iff in Hin;
      intuition (first [injection H; intros; subst; auto | congruence | auto]).
Qed.

Lemma solm_run_cycles (cfg : SOLM.BotConfig) (idx : Z) (ticks : list Tick) :
  forall b, SOLM.is_running b = true ->
    map snd (solm_cycles cfg idx b ticks) = ticks /\
    snd (SOLM.run cfg idx b ticks) =
      concat (map (fun '(bi, tk) =>
                     let '(r, _, eff) := SOLM.process_cycle cfg idx bi tk in
                     eff ++ match r with
                            | Err e => [LogError ("Trading cycle failed: " ++ e); Sleep 5000]
                            | Ok _ => [Sleep (SOLM.debounce_ms cfg)]
                            end) (solm_cycles cfg idx b ticks)) /\
    Forall (fun '(bi, tk) =>
              (count_submits (snd (SOLM.process_cycle cfg idx bi tk)) <= 1)%nat /\
              count_sleeps (snd (SOLM.process_cycle cfg idx bi tk)) = 0%nat)
           (solm_cycles cfg idx b ticks).
Proof.
  induction ticks as [|tk rest IH]; intros b Hr.
  - simpl. repeat split; constructor.
  - simpl. rewrite Hr.
    destruct (SOLM.process_cycle cfg idx b tk) as [[r b1] eff] eqn:Hc.
    pose proof (solm_process_cycle_shape _ _ _ _ _ _ _ Hc) as [Hs Hef].
    rewrite Hr in Hs. simpl.
    destruct (IH b1 Hs) as [I1 [I2 I3]].
    destruct (SOLM.run cfg idx b1 rest) as [[e b2] eff2]. simpl in *.
    rewrite I1. split; [reflexivity|]. split.
    + rewrite I2, Hc. destruct r; reflexivity.
    + constructor; [|exact I3]. rewrite Hc. simpl.
      destruct Hef as [->|[o [q ->]]]; unfold count_submits, count_sleeps; simpl; lia.
Qed.

(** X8: the [start] loop of [simple-oracle-limit-maker] never returns (only
    an interruption ends it) and keeps [is_running].  It runs one cycle per
    tick, and each cycle's effects are those of its [process_cycle] (at
    most one transaction, no sleep) followed by exactly one sleep: after a
    failed cycle the error log and 5000 ms, after any other cycle
    [debounce_ms]. *)
Theorem solm_loop_runs_until_interrupted :
  forall cfg idx b ticks,
    let cycles := solm_cycles cfg idx (SOLM.set_running true b) ticks in
    fst (fst (SOLM.start cfg idx b ticks)) = Interrupted /\
    SOLM.is_running (snd (fst (SOLM.start cfg idx b ticks))) = true /\
    map snd cycles = ticks /\
    snd (SOLM.start cfg idx b ticks) =
      concat (map (fun '(bi, tk) =>
                     let '(r, _, eff) := SOLM.process_cycle cfg idx bi tk in
                     eff ++ match r with
                            | Err e => [LogError ("Trading cycle failed: " ++ e); Sleep 5000]
                            | Ok _ => [Sleep (SOLM.debounce_ms cfg)]
                            end) cycles) /\
    Forall (fun '(bi, tk) =>
              (count_submits (snd (SOLM.process_cycle cfg idx bi tk)) <= 1)%nat /\
              count_sleeps (snd (SOLM.process_cycle cfg idx bi tk)) = 0%nat) cycles.
Proof.
  intros cfg idx b ticks cycles. unfold cycles, SOLM.start.
  destruct (solm_run_running cfg idx ticks (SOLM.set_running true b) eq_refl) as [H1 [H2 _]].
  destruct (solm_run_cycles cfg idx ticks (SOLM.set_running true b) eq_refl) as [C1 [C2 C3]].
  repeat split; assumption.
Qed.

(** X9: [main] of [simple-oracle-limit-maker]: once [new] has succeeded,
    the trading loop can only end by Ctrl+C, after which [stop] runs on the
    loop's final bot, still running, its effects follow those of the loop,
    and the process exits with code 0. *)
Theorem solm_main_outcome :
  forall idx init ticks env,
    let run := SOLM.start SOLM_main_config idx (SOLM.new_bot init) ticks in
    fst (solm_main (NewOk idx) init ticks env) = 0%Z /\
    fst (fst run) = Interrupted /\
    SOLM.is_running (snd (fst run)) = true /\
    snd (solm_main (NewOk idx) init ticks env) =
      snd run ++ snd (SOLM.stop idx (snd (fst run)) env).
Proof.
  intros idx init ticks env run.
  destruct (solm_run_running SOLM_main_config idx ticks
              (SOLM.set_running true (SOLM.new_bot init)) eq_refl) as [H1 [H2 _]].
  unfold run, solm_main, SOLM.start in *.
  destruct (SOLM.run _ _ _ _) as [[e b] eff]. simpl in H1, H2 |- *. subst e.
  destruct (SOLM.stop idx b env) as [b' eff2].
  repeat split; assumption.
Qed.



(** X11: for a non-negative base size, both sizes of
    [calculate_dynamic_sizing] lie in [0, base]; the side that reduces the
    position keeps the full base size (the ask for a long or flat position,
    the bid for a short or flat one). *)
Theorem olm_dynamic_sizing_bounds :
  forall base r, 0 <= base ->
    0 <= fst (OLM.calculate_dynamic_sizing base r) <= base /\
    0 <= snd (OLM.calculate_dynamic_sizing base r) <= base /\
    (0 <= r -> snd (OLM.calculate_dynamic_sizing base r) = base) /\
    (r <= 0 -> fst (OLM.calculate_dynamic_sizing base r) = base).
Proof.
  intros base r Hb. unfold OLM.calculate_dynamic_sizing, f64_abs.
  destruct (Rle_dec 1 (Rabs r)).
  - destruct (Rlt_dec 0 r); simpl.
    + repeat split; lra.
    + repeat split; try lra. intro Hr. assert (r = 0) by lra. subst. rewrite Rabs_R0 in r0. lra.
  - pose proof (Rabs_pos r).
    assert (Hm : 0 <= (if Rlt_dec 0.2 (Rabs r)
                       then -1 / (1 - 0.2) * Rabs r + - (-1 / (1 - 0.2)) else 1) <= 1).
    { destruct (Rlt_dec 0.2 (Rabs r)); [|lra].
      replace (-1 / (1 - 0.2) * Rabs r + - (-1 / (1 - 0.2))) with ((1 - Rabs r) / (1 - 0.2))
        by (field; lra).
      split; [apply Rmult_le_pos; [lra|left; apply Rinv_0_lt_compat; lra]|].
      apply Rmult_le_reg_r with (1 - 0.2); [lra|]. unfold Rdiv.
      rewrite Rmult_assoc, Rinv_l by lra. lra. }
    set (m := if Rlt_dec 0.2 (Rabs r) then _ else _) in *.
    destruct (Rlt_dec 0 r); [|destruct (Rlt_dec r 0)]; simpl;
      (split; [split; nra|split; [split; nra|split; intro; lra]]).
Qed.

(** X12: for a non-negative base size, the size of the side that would grow
    the position never increases as the position ratio grows in magnitude
    (the bid for long ratios, the ask for short ones). *)
Theorem olm_dynamic_sizing_monotone :
  forall base r1 r2, 0 <= base ->
    (0 < r1 <= r2 ->
     fst (OLM.calculate_dynamic_sizing base r2) <= fst (OLM.calculate_dynamic_sizing base r1)) /\
    (r2 <= r1 < 0 ->
     snd (OLM.calculate_dynamic_sizing base r2) <= snd (OLM.calculate_dynamic_sizing base r1)).
Proof.
  intros base r1 r2 Hb.
  assert (Hslope : forall a, -1 / (1 - 0.2) * a + - (-1 / (1 - 0.2)) = (1 - a) * / (1 - 0.2))
    by (intro a; field; lra).
  assert (Hinv : 0 < / (1 - 0.2)) by (apply Rinv_0_lt_compat; lra).
  unfold OLM.calculate_dynamic_sizing, f64_abs. rewrite !Hslope.
  split; intros [H1 H2].
  - rewrite (Rabs_pos_eq r1), (Rabs_pos_eq r2) by lra.
    destruct (Rlt_dec 0 r1); [|lra]. destruct (Rlt_dec 0 r2); [|lra].
    destruct (Rle_dec 1 r2); destruct (Rle_dec 1 r1); try lra;
      destruct (Rlt_dec 0.2 r2); destruct (Rlt_dec 0.2 r1); simpl; try lra;
      nra.
  - rewrite (Rabs_left r1), (Rabs_left r2) by lra.
    destruct (Rlt_dec 0 r1); [lra|]. destruct (Rlt_dec 0 r2); [lra|].
    destruct (Rlt_dec r1 0); [|lra]. destruct (Rlt_dec r2 0); [|lra].
    destruct (Rle_dec 1 (- r2)); destruct (Rle_dec 1 (- r1)); try lra;
      destruct (Rlt_dec 0.2 (- r2)); destruct (Rlt_dec 0.2 (- r1)); simpl; try lra;
      nra.
Qed.

(** X13: [calculate_quotes] of [simple-oracle-limit-maker] always quotes the
    configured [order_size], and the total quoted width (bid bps + ask bps)
    is never below [base_spread_bps]: it equals it when flat and equals
    [max(base, base / 2 + skew + 1)] for a non-zero position. *)
Theorem solm_quote_spread :
  forall cfg pos,
    let q := SOLM.calculate_quotes cfg pos in
    let base := SOLM.N2R (SOLM.base_spread_bps cfg) in
    let skew := Rabs (pos / SOLM.max_position cfg) * SOLM.N2R (SOLM.max_skew_bps cfg) in
    SOLM.size q = SOLM.order_size cfg /\
    base <= SOLM.bid_offset_bps q + SOLM.ask_offset_bps q /\
    (pos <> 0 -> SOLM.bid_offset_bps q + SOLM.ask_offset_bps q = Rmax base (base / 2 + skew + 1)) /\
    (pos = 0 -> SOLM.bid_offset_bps q + SOLM.ask_offset_bps q = base).
Proof.
  intros cfg pos q base skew.
  assert (Hk : 0 <= skew).
  { unfold skew, SOLM.N2R. apply Rmult_le_pos; [apply Rabs_pos|].
    apply IZR_le. apply N2Z.is_nonneg. }
  subst q. unfold SOLM.calculate_quotes, f64_abs, f64_max. fold base skew.
  destruct (Rlt_dec 0 pos); [|destruct (Rlt_dec pos 0)]; simpl.
  - split; [reflexivity|]. split; [pose proof (Rmax_l (base / 2 - skew) 1); lra|].
    split; [|lra]. intros _.
    unfold Rmax. destruct (Rle_dec (base / 2 - skew) 1); destruct (Rle_dec base (base / 2 + skew + 1));
      lra.
  - split; [reflexivity|]. split; [pose proof (Rmax_l (base / 2 - skew) 1); lra|].
    split; [|lra]. intros _.
    unfold Rmax. destruct (Rle_dec (base / 2 - skew) 1); destruct (Rle_dec base (base / 2 + skew + 1));
      lra.
  - split; [reflexivity|]. split; [lra|]. split; [lra|]. intros _; lra.
Qed.

Lemma trunc_bounds (x : R) : Rabs (IZR (trunc x) - x) < 1 /\
  (0 <= x -> IZR (trunc x) <= x) /\ (x <= 0 -> x <= IZR (trunc x)).
Proof.
  unfold trunc. destruct (Rle_dec 0 x).
  - destruct (base_Int_part x) as [H1 H2].
    split; [apply Rabs_def1; lra|]. split; [intros; lra|]. intros. 
    replace x with 0 in * by lra. rewrite (Int_part_eq 0 0) by lra. lra.
  - destruct (base_Int_part (- x)) as [H1 H2]. rewrite opp_IZR.
    split; [apply Rabs_def1; lra|]. split; [intros; lra|]. intros. lra.
Qed.


Lemma f64_as_i32_nonneg_bounds (x : R) :
  0 <= x -> 0 <= IZR (f64_as_i32 x) <= x /\ (x < IZR (2 ^ 31) -> x - 1 < IZR (f64_as_i32 x)).
Proof.
  intro H. pose proof (trunc_nonneg x H) as Hn. destruct (trunc_bounds x) as [Ha [Hb _]].
  specialize (Hb H). apply Rabs_def2 in Ha.
  unfold f64_as_i32.
  destruct (Z.le_gt_cases (trunc x) (2 ^ 31 - 1)) as [Hl|Hl].
  - rewrite Z.min_r by lia. rewrite Z.max_r by lia.
    split; [split; [apply IZR_le; lia|exact Hb]|]. intros _. lra.
  - rewrite Z.min_l by lia. rewrite Z.max_r by lia.
    split; [split; [apply IZR_le; lia|]|].
    + apply IZR_lt in Hl. rewrite minus_IZR in *. lra.
    + intro Hx. exfalso. assert (IZR (trunc x) < IZR (2 ^ 31)) by lra.
      apply lt_IZR in H0. lia.
Qed.

Lemma f64_as_i32_nonpos_bounds (x : R) :
  x <= 0 -> x <= IZR (f64_as_i32 x) <= 0 /\ (- IZR (2 ^ 31) < x -> IZR (f64_as_i32 x) < x + 1).
Proof.
  intro H. pose proof (trunc_nonpos x H) as Hn. destruct (trunc_bounds x) as [Ha [_ Hb]].
  specialize (Hb H). apply Rabs_def2 in Ha.
  unfold f64_as_i32.
  destruct (Z.le_gt_cases (- 2 ^ 31) (trunc x)) as [Hl|Hl].
  - rewrite Z.min_r by lia. rewrite Z.max_r by lia.
    split; [split; [exact Hb|apply IZR_le; lia]|]. intros _. lra.
  - rewrite Z.min_r by lia. rewrite Z.max_l by lia.
    split; [split; [|apply IZR_le; lia]|].
    + apply IZR_lt in Hl. rewrite opp_IZR in *. lra.
    + intro Hx. exfalso. assert (- IZR (2 ^ 31) < IZR (trunc x)) by lra.
      rewrite <- opp_IZR in H0. apply lt_IZR in H0. lia.
Qed.

(** X14: for a non-negative oracle price, the i32 oracle offsets of
    [simple-oracle-limit-maker] never reach further from the oracle than the
    exact [oracle * bps / 10000] values (truncation and saturation move them
    toward the oracle), and fall short by less than one price unit when the
    exact value is below 2^31. *)
Theorem solm_price_offsets_truncate :
  forall cfg pos oracle, (0 <= oracle)%Z ->
    let q := SOLM.calculate_quotes cfg pos in
    let xb := IZR oracle * SOLM.bid_offset_bps q / 10000 in
    let xa := IZR oracle * SOLM.ask_offset_bps q / 10000 in
    - xb <= IZR (fst (SOLM.price_offsets oracle q)) <= 0 /\
    0 <= IZR (snd (SOLM.price_offsets oracle q)) <= xa /\
    (xb < IZR (2 ^ 31) -> IZR (fst (SOLM.price_offsets oracle q)) < - xb + 1) /\
    (xa < IZR (2 ^ 31) -> xa - 1 < IZR (snd (SOLM.price_offsets oracle q))).
Proof.
  intros cfg pos oracle Ho q xb xa.
  destruct (solm_quote_bps_nonneg cfg pos) as [Hb Ha].
  apply IZR_le in Ho.
  assert (Hxb : 0 <= xb) by (unfold xb, q; unfold Rdiv; apply Rmult_le_pos; [apply Rmult_le_pos|]; lra).
  assert (Hxa : 0 <= xa) by (unfold xa, q; unfold Rdiv; apply Rmult_le_pos; [apply Rmult_le_pos|]; lra).
  unfold SOLM.price_offsets. simpl. fold q xb xa.
  destruct (f64_as_i32_nonpos_bounds (- xb) ltac:(lra)) as [B1 B2].
  destruct (f64_as_i32_nonneg_bounds xa Hxa) as [A1 A2].
  split; [exact B1|]. split; [exact A1|]. split.
  - intro H. apply B2. lra.
  - exact A2.
Qed.

Lemma solm_price_offsets_truncate_witness :
  (0 <= 100000000)%Z /\
  - (IZR 100000000 * SOLM.bid_offset_bps (SOLM.calculate_quotes SOLM_main_config 0) / 10000)
    <= IZR (fst (SOLM.price_offsets 100000000 (SOLM.calculate_quotes SOLM_main_config 0))) <= 0.
Proof.
  split; [lia|].
  apply (solm_price_offsets_truncate SOLM_main_config 0 100000000). lia.
Defined.



(** X16: with a positive [max_position_size], when the position reaches the
    maximum long size [oracle-limit-maker] still builds the bid, with base
    amount 0, next to a full-size ask; at the maximum short size the ask has
    base amount 0. *)
Theorem olm_zero_size_at_max_position :
  forall cfg idx new_price b a pb,
    0 < OLM.max_position_size cfg ->
    (OLM.max_position_size cfg <= IZR pb / BASE_PRECISION_F64 ->
     map direction (OLM.quote_orders idx (OLM.compute_quote cfg new_price b a pb)) = [Long; Short] /\
     map base_asset_amount (OLM.quote_orders idx (OLM.compute_quote cfg new_price b a pb)) =
       [0%Z; f64_as_u64 (OLM.order_size cfg * BASE_PRECISION_F64)]) /\
    (IZR pb / BASE_PRECISION_F64 <= - OLM.max_position_size cfg ->
     map direction (OLM.quote_orders idx (OLM.compute_quote cfg new_price b a pb)) = [Long; Short] /\
     map base_asset_amount (OLM.quote_orders idx (OLM.compute_quote cfg new_price b a pb)) =
       [f64_as_u64 (OLM.order_size cfg * BASE_PRECISION_F64); 0%Z]).
Proof.
  intros cfg idx new_price b a pb Hm.
  assert (Hz : f64_as_u64 (0 * BASE_PRECISION_F64) = 0%Z).
  { rewrite Rmult_0_l. unfold f64_as_u64, trunc.
    destruct (Rle_dec 0 0); [|lra]. rewrite (Int_part_eq 0 0) by lra. reflexivity. }
  unfold OLM.compute_quote, OLM.calculate_dynamic_sizing, f64_abs.
  set (r := IZR pb / BASE_PRECISION_F64 / OLM.max_position_size cfg).
  destruct (OLM.calculate_inventory_skew r) as [bm am].
  split; intro H.
  - assert (Hr : 1 <= r).
    { unfold r. apply Rmult_le_reg_r with (OLM.max_position_size cfg); [exact Hm|].
      unfold Rdiv at 1. rewrite Rmult_assoc, Rinv_l by lra. lra. }
    rewrite Rabs_pos_eq by lra.
    destruct (Rle_dec 1 r); [|lra]. destruct (Rlt_dec 0 r); [|lra].
    simpl. rewrite Hz. split; reflexivity.
  - assert (Hr : r <= -1).
    { unfold r. apply Rmult_le_reg_r with (OLM.max_position_size cfg); [exact Hm|].
      unfold Rdiv at 1. rewrite Rmult_assoc, Rinv_l by lra. lra. }
    rewrite Rabs_left by lra.
    destruct (Rle_dec 1 (- r)); [|lra]. destruct (Rlt_dec 0 r); [lra|].
    simpl. rewrite Hz. split; reflexivity.
Qed.

Lemma olm_zero_size_at_max_position_witness :
  0 < OLM.max_position_size OLM_main_config /\
  OLM.max_position_size OLM_main_config <= IZR 10000000 / BASE_PRECISION_F64 /\
  map base_asset_amount (OLM.quote_orders 0 (OLM.compute_quote OLM_main_config 100000000 99.99 100.01 10000000)) =
    [0%Z; f64_as_u64 (OLM.order_size OLM_main_config * BASE_PRECISION_F64)].
Proof.
  assert (H0 : 0 < OLM.max_position_size OLM_main_config) by (simpl; lra).
  assert (H1 : OLM.max_position_size OLM_main_config <= IZR 10000000 / BASE_PRECISION_F64)
    by (simpl; unfold BASE_PRECISION_F64, BASE_PRECISION; lra).
  split; [exact H0|]. split; [exact H1|].
  apply (proj1 (olm_zero_size_at_max_position OLM_main_config 0 100000000 99.99 100.01 10000000 H0) H1).
Defined.

Lemma u64_sub_exact (last d : Z) :
  (0 <= last)%Z -> (0 <= d)%Z -> (last + d < 2 ^ 64)%Z -> Z.ltb (u64_sub (last + d) last) d = false.
Proof.
  intros H1 H2 H3. unfold u64_sub. rewrite Z.mod_small by lia. apply Z.ltb_ge. lia.
Qed.

(** X17: with u64 subtraction wrapping (release build), a clock reading
    earlier than the last update makes both gates decide as if the debounce
    interval had just elapsed: the debounce never holds an update back after
    the clock steps back (by less than [2^64 - debounce_ms]). *)
Theorem gate_clock_step_back :
  (forall cfg st now p,
     (0 <= now < OLM.last_update_time st)%Z -> (0 <= OLM.debounce_ms cfg)%Z ->
     (OLM.last_update_time st + OLM.debounce_ms cfg < 2 ^ 64)%Z ->
     (OLM.debounce_ms cfg <= 2 ^ 64 - (OLM.last_update_time st - now))%Z ->
     OLM.should_update cfg st now p =
     OLM.should_update cfg st (OLM.last_update_time st + OLM.debounce_ms cfg) p) /\
  (forall cfg b now p,
     (0 <= now < SOLM.last_oracle_update b)%Z -> (0 <= SOLM.debounce_ms cfg)%Z ->
     (SOLM.last_oracle_update b + SOLM.debounce_ms cfg < 2 ^ 64)%Z ->
     (SOLM.debounce_ms cfg <= 2 ^ 64 - (SOLM.last_oracle_update b - now))%Z ->
     SOLM.should_update_quotes cfg b now p =
     SOLM.should_update_quotes cfg b (SOLM.last_oracle_update b + SOLM.debounce_ms cfg) p).
Proof.
  split.
  - intros cfg st now p H1 H2 H3 H4. unfold OLM.should_update.
    rewrite u64_sub_back by lia. rewrite u64_sub_exact by lia. reflexivity.
  - intros cfg b now p H1 H2 H3 H4. unfold SOLM.should_update_quotes.
    rewrite u64_sub_back by lia. rewrite u64_sub_exact by lia. reflexivity.
Qed.

Lemma gate_clock_step_back_witness :
  OLM.should_update OLM_main_config
    {| OLM.prev_oracle_price := 0; OLM.last_update_time := 5000; OLM.is_running := true |}
    4999 100000000 = true /\
  SOLM.should_update_quotes SOLM_main_config
    {| SOLM.oracle_price := 100000000; SOLM.prev_oracle_price := 0; SOLM.last_oracle_update := 5000;
       SOLM.has_active_orders := false; SOLM.is_running := true; SOLM.is_processing := false |}
    4999 100000000 = true.
Proof.
  split.
  - rewrite (proj1 gate_clock_step_back OLM_main_config
               {| OLM.prev_oracle_price := 0; OLM.last_update_time := 5000; OLM.is_running := true |}
               4999%Z 100000000%Z) by (simpl; lia).
    reflexivity.
  - rewrite (proj2 gate_clock_step_back SOLM_main_config
               {| SOLM.oracle_price := 100000000; SOLM.prev_oracle_price := 0;
                  SOLM.last_oracle_update := 5000; SOLM.has_active_orders := false;
                  SOLM.is_running := true; SOLM.is_processing := false |}
               4999%Z 100000000%Z) by (simpl; lia).
    reflexivity.
Defined.

Lemma keys_ascending_head (x : Z * Z) (l : BTreeMap) :
  keys_ascending (x :: l) = true -> keys_ascending l = true /\ forall y, In y l -> (fst x < fst y)%Z.
Proof.
  revert x. induction l as [|y l IH]; intros x H.
  - split; [reflexivity|intros y []].
  - simpl in H. apply andb_prop in H. destruct H as [Hxy Hl]. apply Z.ltb_lt in Hxy.
    split; [exact Hl|].
    destruct (IH y Hl) as [_ Hy].
    intros z [<-|Hz]; [exact Hxy|]. specialize (Hy z Hz). lia.
Qed.

Lemma keys_ascending_last (l : BTreeMap) (x : Z * Z) :
  keys_ascending (l ++ [x]) = true -> forall y, In y l -> (fst y < fst x)%Z.
Proof.
  induction l as [|z l IH]; intros H y Hy; [destruct Hy|].
  simpl in H. apply keys_ascending_head in H. destruct H as [Hl Hz].
  destruct Hy as [<-|Hy].
  - apply Hz. apply in_or_app. right. left. reflexivity.
  - exact (IH Hl y Hy).
Qed.

(** X18: for book sides in [BTreeMap] order (ascending keys), [process_update]
    of [oracle-limit-maker] reads as best bid the highest bid level and as
    best ask the lowest ask level (in quote units), and fails with
    "No bids in orderbook" / "No asks in orderbook" exactly when that side is
    empty. *)
Theorem olm_best_prices_extreme :
  forall l2,
    keys_ascending (bids l2) = true -> keys_ascending (asks l2) = true ->
    (OLM.best_bid l2 = Err "No bids in orderbook"%string <-> bids l2 = []) /\
    (OLM.best_ask l2 = Err "No asks in orderbook"%string <-> asks l2 = []) /\
    (forall bp, OLM.best_bid l2 = Ok bp ->
       (exists p s, In (p, s) (bids l2) /\ bp = IZR p / QUOTE_PRECISION_F64) /\
       forall p s, In (p, s) (bids l2) -> IZR p / QUOTE_PRECISION_F64 <= bp) /\
    (forall ap, OLM.best_ask l2 = Ok ap ->
       (exists p s, In (p, s) (asks l2) /\ ap = IZR p / QUOTE_PRECISION_F64) /\
       forall p s, In (p, s) (asks l2) -> ap <= IZR p / QUOTE_PRECISION_F64).
Proof.
  intros l2 Hb Ha.
  assert (Hq : 0 < QUOTE_PRECISION_F64) by (unfold QUOTE_PRECISION_F64, QUOTE_PRECISION; lra).
  assert (Hdiv : forall p q : Z, (p <= q)%Z -> IZR p / QUOTE_PRECISION_F64 <= IZR q / QUOTE_PRECISION_F64).
  { intros p q H. apply IZR_le in H. unfold Rdiv.
    apply Rmult_le_compat_r; [left; apply Rinv_0_lt_compat; exact Hq|exact H]. }
  split; [|split; [|split]].
  - unfold OLM.best_bid, btree_last.
    destruct (rev (bids l2)) as [|[p s] r] eqn:E.
    + split; [intros _|reflexivity]. rewrite <- (rev_involutive (bids l2)), E. reflexivity.
    + split; [discriminate|intro H; rewrite H in E; discriminate].
  - unfold OLM.best_ask, btree_first.
    destruct (asks l2) as [|[p s] r]; split; (reflexivity || discriminate).
  - intros bp. unfold OLM.best_bid, btree_last.
    destruct (rev (bids l2)) as [|[p s] r] eqn:E; [discriminate|].
    intro H. inversion H; subst bp.
    assert (Hl : bids l2 = rev r ++ [(p, s)])
      by (rewrite <- (rev_involutive (bids l2)), E; reflexivity).
    split.
    + exists p, s. split; [|reflexivity]. rewrite Hl. apply in_or_app. right. left. reflexivity.
    + intros p' s' Hin. apply Hdiv.
      rewrite Hl in Hb, Hin. apply in_app_or in Hin. destruct Hin as [Hin|[Hin|[]]].
      * pose proof (keys_ascending_last _ _ Hb _ Hin). simpl in H0. lia.
      * inversion Hin; lia.
  - intros ap. unfold OLM.best_ask, btree_first.
    destruct (asks l2) as [|[p s] r] eqn:E; [discriminate|].
    intro H. inversion H; subst ap.
    split.
    + exists p, s. split; [left; reflexivity|reflexivity].
    + intros p' s' [Hin|Hin]; [inversion Hin; lra|].
      apply Hdiv. apply keys_ascending_head in Ha. destruct Ha as [_ Ha].
      pose proof (Ha _ Hin). simpl in H0. lia.
Qed.

Lemma olm_best_prices_extreme_witness :
  keys_ascending [(99990000%Z, 5%Z); (100000000%Z, 2%Z)] = true /\
  keys_ascending [(100010000%Z, 1%Z); (100020000%Z, 3%Z)] = true /\
  OLM.best_bid {| bids := [(99990000%Z, 5%Z); (100000000%Z, 2%Z)];
                  asks := [(100010000%Z, 1%Z); (100020000%Z, 3%Z)] |} =
    Ok (IZR 100000000 / QUOTE_PRECISION_F64) /\
  (forall p s, In (p, s) [(99990000%Z, 5%Z); (100000000%Z, 2%Z)] ->
     IZR p / QUOTE_PRECISION_F64 <= IZR 100000000 / QUOTE_PRECISION_F64).
Proof.
  split; [reflexivity|]. split; [reflexivity|]. split; [reflexivity|].
  destruct (olm_best_prices_extreme
              {| bids := [(99990000%Z, 5%Z); (100000000%Z, 2%Z)];
                 asks := [(100010000%Z, 1%Z); (100020000%Z, 3%Z)] |} eq_refl eq_refl)
    as [_ [_ [Hb _]]].
  exact (proj2 (Hb _ eq_refl)).
Defined.

Lemma olm_dynamic_sizing_bounds_witness :
  0 <= 0.001 /\
  0 <= fst (OLM.calculate_dynamic_sizing 0.001 0.5) <= 0.001 /\
  snd (OLM.calculate_dynamic_sizing 0.001 0.5) = 0.001.
Proof.
  assert (H : 0 <= 0.001) by lra.
  destruct (olm_dynamic_sizing_bounds 0.001 0.5 H) as [H1 [_ [H3 _]]].
  split; [exact H|]. split; [exact H1|]. apply H3. lra.
Defined.

Lemma olm_dynamic_sizing_monotone_witness :
  0 <= 0.001 /\
  fst (OLM.calculate_dynamic_sizing 0.001 0.5) <= fst (OLM.calculate_dynamic_sizing 0.001 0.3).
Proof.
  assert (H : 0 <= 0.001) by lra.
  split; [exact H|].
  apply (proj1 (olm_dynamic_sizing_monotone 0.001 0.3 0.5 H)). lra.
Defined.
